(** * The autonomous AI backend (backend/server.js): scheduling loop and
      payout guard

    A shallow embedding of [backend/server.js].  JavaScript numbers are IEEE
    754 binary64 values: they are modelled by Rocq's primitive floats, which
    are the same format with the same rounding (to nearest, ties to even), so
    that [0.01 + 0.01] here is the double that Node computes.  The counters
    that only ever hold small non-negative integers ([tasksCompleted],
    [cycleCount]) are modelled in [N]: a double is exact on integers below
    2^53, a bound that a counter incremented a few times every five minutes
    does not approach.

    Node runs one callback at a time, to completion, and drains the promise
    jobs it queued before it takes the next timer or request.  The only
    places where [runCycle] yields to other callbacks are therefore its timers
    ([setTimeout] behind an [await]); one transition of the machine below is
    one such turn of the event loop, and the states between transitions are
    the observation points of an HTTP handler. *)

From Stdlib Require Import ZArith NArith QArith List String Bool Lia.
From Stdlib Require Import PrimFloat FloatOps SpecFloat.
From stdpp Require Import base list.
Import ListNotations.

Set Warnings "-inexact-float,-register-all".
Local Open Scope string_scope.

(** ** JavaScript values *)

Module JS.

(** What [JSON.parse] produces, plus [undefined] for an absent property. *)
Inductive value : Type :=
| undefined
| null
| boolean (b : bool)
| number (f : float)
| str (s : string)
| array (items : list value)
| object (props : list (string * value)).

(** A thrown [Error]; handlers read [error.message]. *)
Record Error : Type := mkError { message : string }.

(** What a [throw] or a rejected promise carries: an [Error] object, or any
    other value ([throw null], [Promise.reject()] with no argument, ...). *)
Inductive thrown : Type :=
| ThrownError (e : Error)
| ThrownValue (v : value).

(** Outcome of an awaited promise. *)
Inductive settled (A : Type) : Type :=
| Resolved (a : A)
| Rejected (e : Error).
Arguments Resolved {A} a.
Arguments Rejected {A} e.

(** ToBoolean: [!v] is [negb (truthy v)]. *)
Definition truthy (v : value) : bool :=
  match v with
  | undefined | null => false
  | boolean b => b
  | number f => negb (PrimFloat.is_zero f || PrimFloat.is_nan f)
  | str s => negb (String.eqb s "")
  | array _ | object _ => true
  end.

(** [o.k] on a parsed JSON value; [None] is the TypeError raised when [o]
    is [undefined] or [null]. *)
Fixpoint lookup_prop (k : string) (props : list (string * value)) : value :=
  match props with
  | [] => undefined
  | (k', v) :: rest => if String.eqb k k' then v else lookup_prop k rest
  end.

Definition get (o : value) (k : string) : option value :=
  match o with
  | undefined | null => None
  | object props => Some (lookup_prop k props)
  | boolean _ | number _ | str _ | array _ => Some undefined
  end.

(** Whether [error.message] can be evaluated on what a [catch] clause
    received: reading a property of [undefined] or [null] throws a TypeError,
    on anything else it yields a value (possibly [undefined]). *)
Definition reads_message (error : thrown) : bool :=
  match error with
  | ThrownError _ => true
  | ThrownValue v => match get v "message" with Some _ => true | None => false end
  end.

(** [a !== b] on two values that are each a string or [undefined]. *)
Definition strict_neq (a b : option string) : bool :=
  match a, b with
  | Some x, Some y => negb (String.eqb x y)
  | None, None => false
  | _, _ => true
  end.

(** ToNumber, as the operators [*] and [-] apply it to an operand.  The
    engine's conversion of a string literal to a number, and the string a
    JSON array or object converts to, are taken as given. *)
Section Conversions.
Variable StringToNumber : string -> float.
Variable ObjectToString : value -> string.

Definition ToNumber (v : value) : float :=
  match v with
  | undefined => PrimFloat.nan
  | null => 0%float
  | boolean b => if b then 1%float else 0%float
  | number f => f
  | str s => StringToNumber s
  | array _ | object _ => StringToNumber (ObjectToString v)
  end.
End Conversions.

(** The rational a finite double denotes, for comparing with exact sums. *)
Definition exact (f : float) : option Q :=
  match Prim2SF f with
  | S754_zero _ => Some 0%Q
  | S754_finite s m e =>
      let z := if s then Z.neg m else Z.pos m in
      Some (Qred (if (0 <=? e)%Z then inject_Z (z * 2 ^ e)
                  else (z # Pos.pow 2 (Z.to_pos (- e)))))
  | S754_infinity _ | S754_nan => None
  end.

End JS.

(** ** AI Agent *)

Record Task : Type := mkTask {
  id : Z;
  title : string;
  reward : float;
  keywords : list string
}.

Module AIAgent.

Record Stats : Type := mkStats {
  tasksCompleted : N;
  totalEarnings : float;
  successRate : float
}.

Record t : Type := mk {
  name : string;
  capabilities : list string;
  stats : Stats;
  isActive : bool
}.

Definition constructor (name : string) (capabilities : list string) : t :=
  mk name capabilities (mkStats 0 0%float 0.75%float) true.

(** The value [findTasks] resolves to when its one-second timer has fired;
    [now] is what [Date.now()] reads then. *)
Definition findTasks (this : t) (now : Z) : list Task :=
  [ mkTask now "Sample Task" 0.01%float (capabilities this) ].

Record Result : Type := mkResult {
  success : bool;
  earnings : option float
}.

(** The part of [executeTask] after its two-second timer; [random] is what
    [Math.random()] returns. *)
Definition executeTask (this : t) (task : Task) (random : float) : t * Result :=
  if (0.25 <? random)%float then
    let s := stats this in
    (mk (name this) (capabilities this)
        (mkStats (tasksCompleted s + 1)
                 (totalEarnings s + reward task)%float
                 (successRate s))
        (isActive this),
     mkResult true (Some (reward task)))
  else (this, mkResult false None).

Record Snapshot : Type := mkSnapshot {
  snap_name : string;
  snap_isActive : bool;
  snap_tasksCompleted : N;
  snap_totalEarnings : float;
  snap_successRate : float
}.

Definition getStats (this : t) : Snapshot :=
  mkSnapshot (name this) (isActive this) (tasksCompleted (stats this))
             (totalEarnings (stats this)) (successRate (stats this)).

End AIAgent.

(** ** Orchestrator *)

Module Orchestrator.

Record Stats : Type := mkStats {
  totalEarnings : float;
  tasksCompleted : N;
  cycleCount : N
}.

(** The [walletService] field is stored by the constructor and never read
    by the class; it is left out. *)
Record t : Type := mk {
  agents : list AIAgent.t;
  isRunning : bool;
  stats : Stats
}.

Definition constructor : t :=
  mk [ AIAgent.constructor "GitcoinAgent" ["smart-contract"; "web3"];
       AIAgent.constructor "UpworkAgent" ["frontend"; "react"];
       AIAgent.constructor "BountyAgent" ["testing"; "security"] ]
     false
     (mkStats 0%float 0 0).

Definition set_isRunning (b : bool) (o : t) : t := mk (agents o) b (stats o).
Definition set_agents (l : list AIAgent.t) (o : t) : t := mk l (isRunning o) (stats o).
Definition set_stats (s : Stats) (o : t) : t := mk (agents o) (isRunning o) s.

(** [this.agents.filter(a => a.isActive)]: the agents are shared objects,
    so the filtered array is kept as positions in [agents]. *)
Fixpoint active_from (i : nat) (l : list AIAgent.t) : list nat :=
  match l with
  | [] => []
  | a :: l' => if AIAgent.isActive a then i :: active_from (S i) l' else active_from (S i) l'
  end.

Definition active_agents (o : t) : list nat := active_from 0 (agents o).

(** Where a [runCycle] activation is suspended: every [await] of the loop
    ends in a timer.  [Returned] is the loop left through its [while] test;
    [Aborted] is [runCycle] ended by an exception thrown inside its [catch]
    clause (its promise is rejected, and nothing handles the rejection). *)
Inductive Await : Type :=
| AwaitFindTasks (agent : nat) (rest : list nat)
| AwaitExecuteTask (agent : nat) (task : Task) (tasks : list Task) (rest : list nat)
| AwaitSleep (ms : Z)
| Returned
| Aborted.

(** What the loop has called, in order (a record kept for the proofs). *)
Inductive Call : Type :=
| CallFindTasks (agent : nat)
| CallExecuteTask (agent : nat) (task : Task)
| CallSleep (ms : Z).

Definition Progress : Type := (t * list Call * Await)%type.

(** Head of [for (const agent of ...)]: the next agent's [findTasks] is
    called, or the cycle ends in the five-minute sleep. *)
Definition next_agent (o : t) (rest : list nat) : Progress :=
  match rest with
  | [] => (o, [CallSleep 300000], AwaitSleep 300000)
  | a :: rest' => (o, [CallFindTasks a], AwaitFindTasks a rest')
  end.

(** Head of [for (const task of tasks.slice(0, 2))]. *)
Definition next_task (o : t) (a : nat) (tasks : list Task) (rest : list nat) : Progress :=
  match tasks with
  | [] => next_agent o rest
  | task :: tasks' => (o, [CallExecuteTask a task], AwaitExecuteTask a task tasks' rest)
  end.

(** The [while] test and the body up to its first [await]. *)
Definition runCycle (o : t) : Progress :=
  if isRunning o then
    let s := stats o in
    let o1 := set_stats (mkStats (totalEarnings s) (tasksCompleted s) (cycleCount s + 1)) o in
    next_agent o1 (active_agents o1)
  else (o, [], Returned).

(** What wakes a suspended activation.  [Throws] is the awaited call
    rejecting, with whatever value it throws: the methods of [AIAgent] never
    do, the [catch] clause of [runCycle] is written for agents that would. *)
Inductive Event : Type :=
| FindTasksDone (now : Z)
| ExecuteTaskDone (random : float)
| TimerFired
| Throws (error : JS.thrown).

(** The [catch] clause: [console.error('...', error.message)], then the
    one-minute sleep.  When [error] is [null] or [undefined], reading
    [error.message] throws and [runCycle] ends there, before the sleep. *)
Definition catch (o : t) (error : JS.thrown) : Progress :=
  if JS.reads_message error then (o, [CallSleep 60000], AwaitSleep 60000)
  else (o, [], Aborted).

(** [this.stats.totalEarnings += result.earnings; this.stats.tasksCompleted++] *)
Definition record_result (r : AIAgent.Result) (o : t) : t :=
  if AIAgent.success r then
    let s := stats o in
    let e := match AIAgent.earnings r with Some e => e | None => PrimFloat.nan end in
    set_stats (mkStats (totalEarnings s + e)%float (tasksCompleted s + 1) (cycleCount s)) o
  else o.

(** One turn of the event loop for one activation: from the timer that
    wakes it to its next [await]. *)
Definition resume (o : t) (k : Await) (ev : Event) : option Progress :=
  match k, ev with
  | AwaitFindTasks a rest, FindTasksDone now =>
      match agents o !! a with
      | Some agent => Some (next_task o a (take 2 (AIAgent.findTasks agent now)) rest)
      | None => None
      end
  | AwaitExecuteTask a task tasks rest, ExecuteTaskDone random =>
      match agents o !! a with
      | Some agent =>
          let '(agent', result) := AIAgent.executeTask agent task random in
          let o1 := set_agents (<[a := agent']> (agents o)) o in
          Some (next_task (record_result result o1) a tasks rest)
      | None => None
      end
  | AwaitFindTasks _ _, Throws error
  | AwaitExecuteTask _ _ _ _, Throws error => Some (catch o error)
  | AwaitSleep _, TimerFired => Some (runCycle o)
  | _, _ => None
  end.

(** The orchestrator object, the activations of [runCycle] started on it
    and the calls they have made. *)
Record Machine : Type := mkMachine {
  this : t;
  loops : list Await;
  calls : list Call
}.

Definition boot : Machine := mkMachine constructor [] [].

Definition start (m : Machine) : Machine :=
  if isRunning (this m) then m
  else
    let '(o, cs, k) := runCycle (set_isRunning true (this m)) in
    mkMachine o (loops m ++ [k]) (calls m ++ cs).

Definition stop (m : Machine) : Machine :=
  mkMachine (set_isRunning false (this m)) (loops m) (calls m).

Definition turn (i : nat) (ev : Event) (m : Machine) : option Machine :=
  match loops m !! i with
  | Some k =>
      match resume (this m) k ev with
      | Some (o, cs, k') => Some (mkMachine o (<[i := k']> (loops m)) (calls m ++ cs))
      | None => None
      end
  | None => None
  end.

Inductive Input : Type :=
| Start
| Stop
| Turn (i : nat) (ev : Event).

Definition step (inp : Input) (m : Machine) : option Machine :=
  match inp with
  | Start => Some (start m)
  | Stop => Some (stop m)
  | Turn i ev => turn i ev m
  end.

Fixpoint run (inps : list Input) (m : Machine) : option Machine :=
  match inps with
  | [] => Some m
  | inp :: inps' =>
      match step inp m with
      | Some m' => run inps' m'
      | None => None
      end
  end.

Definition reachable (m : Machine) : Prop := exists inps, run inps boot = Some m.

Definition is_active (k : Await) : bool :=
  match k with Returned | Aborted => false | _ => true end.

Definition active_loops (m : Machine) : nat := length (filter (fun k => is_active k = true) (loops m)).

Record Snapshot : Type := mkSnapshot {
  snap_isRunning : bool;
  snap_totalEarnings : float;
  snap_tasksCompleted : N;
  snap_agentsActive : nat;
  snap_lastSync : string;
  snap_agents : list AIAgent.Snapshot
}.

Definition getStats (o : t) (lastSync : string) : Snapshot :=
  mkSnapshot (isRunning o) (totalEarnings (stats o)) (tasksCompleted (stats o))
             (length (filter (fun a => AIAgent.isActive a = true) (agents o)))
             lastSync
             (map AIAgent.getStats (agents o)).

End Orchestrator.

(** ** Wallet service *)

Module WalletService.

Record t : Type := mk {
  address : string;
  isInitialized : bool
}.

Record Receipt : Type := mkReceipt {
  txHash : string;
  blockNumber : Z
}.

Record Sent : Type := mkSent {
  sent_success : bool;
  sent_txHash : string;
  sent_blockNumber : Z
}.

(** The ethers library: address validation, and the chain side of a
    transfer (gas price, [parseEther(amount.toString())], submission and
    the wait for the receipt), any of which may throw. *)
Record Ethers : Type := mkEthers {
  isAddress : JS.value -> bool;
  sendTransaction : JS.value -> float -> JS.settled Receipt
}.

Definition sendETH (ethers : Ethers) (this : t) (toAddress : JS.value) (amount : float)
  : JS.settled Sent :=
  if negb (isAddress ethers toAddress) then JS.Rejected (JS.mkError "Invalid address")
  else
    match sendTransaction ethers toAddress amount with
    | JS.Resolved r => JS.Resolved (mkSent true (txHash r) (blockNumber r))
    | JS.Rejected e => JS.Rejected e
    end.

End WalletService.

(** ** API routes *)

Module Api.

(** [let walletService, orchestrator;]: both are [undefined] until [init]
    has constructed them. *)
Record Globals : Type := mkGlobals {
  walletService : option WalletService.t;
  orchestrator : option Orchestrator.Machine
}.

Record Request : Type := mkRequest {
  x_api_key : option string;
  body : JS.value
}.

(** The objects the handlers pass to [res.json]. *)
Inductive Json : Type :=
| JError (error : string)
| JFailure (error : string)
| JStats (s : Orchestrator.Snapshot)
| JAgents (agents : list AIAgent.Snapshot)
| JPayout (txHash : string) (blockNumber : Z) (amount fee : float)
| JStopped.

Record Response : Type := mkResponse {
  status : Z;
  json : Json
}.

(** A handler answers, or throws out of its callback. *)
Inductive Outcome : Type :=
| Responds (r : Response)
| Uncaught (e : JS.Error).

(** A call made to [walletService.sendETH]. *)
Record Transfer : Type := mkTransfer {
  transfer_to : JS.value;
  transfer_amount : float
}.

Definition stats (g : Globals) (lastSync : string) : Outcome :=
  match orchestrator g with
  | None => Responds (mkResponse 503 (JError "Not initialized"))
  | Some m => Responds (mkResponse 200 (JStats (Orchestrator.getStats (Orchestrator.this m) lastSync)))
  end.

Definition agents (g : Globals) : Outcome :=
  match orchestrator g with
  | None => Responds (mkResponse 503 (JError "Not initialized"))
  | Some m =>
      Responds (mkResponse 200
        (JAgents (map AIAgent.getStats (Orchestrator.agents (Orchestrator.this m)))))
  end.

Section Handlers.
Variable StringToNumber : string -> float.
Variable ObjectToString : JS.value -> string.
Variable ethers : WalletService.Ethers.
(** [process.env.ADMIN_API_KEY] *)
Variable ADMIN_API_KEY : option string.

Definition fee_of (amount : JS.value) : float :=
  (JS.ToNumber StringToNumber ObjectToString amount * 0.02)%float.

Definition netAmount_of (amount : JS.value) : float :=
  (JS.ToNumber StringToNumber ObjectToString amount - fee_of amount)%float.

(** [POST /api/payout]: the response and the calls made to
    [walletService.sendETH], in order. *)
Definition payout (g : Globals) (req : Request) : Response * list Transfer :=
  if JS.strict_neq (x_api_key req) ADMIN_API_KEY then
    (mkResponse 403 (JFailure "Unauthorized"), [])
  else
    match JS.get (body req) "toAddress", JS.get (body req) "amount" with
    | Some toAddress, Some amount =>
        if negb (JS.truthy toAddress) || negb (JS.truthy amount) then
          (mkResponse 400 (JError "Missing fields"), [])
        else
          let fee := fee_of amount in
          let netAmount := netAmount_of amount in
          match walletService g with
          | Some w =>
              match WalletService.sendETH ethers w toAddress netAmount with
              | JS.Resolved r =>
                  (mkResponse 200
                     (JPayout (WalletService.sent_txHash r) (WalletService.sent_blockNumber r)
                              netAmount fee),
                   [mkTransfer toAddress netAmount])
              | JS.Rejected e =>
                  (mkResponse 500 (JFailure (JS.message e)), [mkTransfer toAddress netAmount])
              end
          | None =>
              (mkResponse 500
                 (JFailure "Cannot read properties of undefined (reading 'sendETH')"), [])
          end
    | _, _ =>
        (mkResponse 500
           (JFailure "Cannot destructure property 'toAddress' of 'req.body' as it is undefined."),
         [])
    end.

(** [POST /api/emergency-stop] *)
Definition emergency_stop (g : Globals) (req : Request) : Outcome * Globals :=
  if JS.strict_neq (x_api_key req) ADMIN_API_KEY then
    (Responds (mkResponse 403 (JError "Unauthorized")), g)
  else
    match orchestrator g with
    | Some m =>
        (Responds (mkResponse 200 JStopped),
         mkGlobals (walletService g) (Some (Orchestrator.stop m)))
    | None =>
        (Uncaught (JS.mkError "Cannot read properties of undefined (reading 'stop')"), g)
    end.

End Handlers.

End Api.

(** ** Test doubles

    Collaborators used where a statement is evaluated on a concrete request:
    a ledger that accepts every address and confirms every transfer, and an
    engine whose string conversion is not exercised. *)

Definition accepting_ethers : WalletService.Ethers :=
  WalletService.mkEthers
    (fun _ => true)
    (fun _ _ => JS.Resolved (WalletService.mkReceipt "0xTX" 1)).

Definition no_StringToNumber : string -> float := fun _ => PrimFloat.nan.
Definition no_ObjectToString : JS.value -> string := fun _ => "[object Object]".

Definition ready_globals : Api.Globals :=
  Api.mkGlobals (Some (WalletService.mk "0xWALLET" true)) (Some Orchestrator.boot).

Definition early_globals : Api.Globals := Api.mkGlobals None None.

Definition payout_body (toAddress amount : JS.value) : JS.value :=
  JS.object [("toAddress", toAddress); ("amount", amount)].

(** ** Vocabulary of the statements *)

(** The sum of the workers' [tasksCompleted]. *)
Definition workers_tasksCompleted (l : list AIAgent.t) : N :=
  foldr (fun a n => AIAgent.tasksCompleted (AIAgent.stats a) + n)%N 0%N l.

(** The sum of the workers' [totalEarnings], added up in pool order with
    JavaScript's [+]. *)
Definition workers_totalEarnings (l : list AIAgent.t) : float :=
  fold_left (fun acc a => acc + AIAgent.totalEarnings (AIAgent.stats a))%float l 0%float.

(** The same sum over the rationals, free of rounding. *)
Definition workers_totalEarnings_exact (l : list AIAgent.t) : option Q :=
  foldr (fun a acc =>
           match JS.exact (AIAgent.totalEarnings (AIAgent.stats a)), acc with
           | Some q, Some r => Some (Qred (q + r))
           | _, _ => None
           end) (Some 0%Q) l.

(** [n] additions of [r] to a counter that starts at 0. *)
Definition accumulate (n : N) (r : float) : float :=
  N.iter n (fun x => x + r)%float 0%float.

(** One turn credits worker [a] with a task of reward [r]: the worker's
    counters and the aggregate's move together. *)
Definition credited (a : nat) (r : float) (o o' : Orchestrator.t) : Prop :=
  exists agent,
    Orchestrator.agents o !! a = Some agent /\
    Orchestrator.agents o' =
      <[a := AIAgent.mk (AIAgent.name agent) (AIAgent.capabilities agent)
               (AIAgent.mkStats
                  (AIAgent.tasksCompleted (AIAgent.stats agent) + 1)
                  (AIAgent.totalEarnings (AIAgent.stats agent) + r)%float
                  (AIAgent.successRate (AIAgent.stats agent)))
               (AIAgent.isActive agent)]> (Orchestrator.agents o) /\
    Orchestrator.tasksCompleted (Orchestrator.stats o')
    = (Orchestrator.tasksCompleted (Orchestrator.stats o) + 1)%N /\
    Orchestrator.totalEarnings (Orchestrator.stats o')
    = (Orchestrator.totalEarnings (Orchestrator.stats o) + r)%float.

(** One turn leaves every worker's counters and the aggregate's as they were. *)
Definition uncredited (o o' : Orchestrator.t) : Prop :=
  Orchestrator.agents o' = Orchestrator.agents o /\
  Orchestrator.tasksCompleted (Orchestrator.stats o')
  = Orchestrator.tasksCompleted (Orchestrator.stats o) /\
  Orchestrator.totalEarnings (Orchestrator.stats o')
  = Orchestrator.totalEarnings (Orchestrator.stats o).

(** Discovery and execution, as opposed to sleeping. *)
Definition is_work (c : Orchestrator.Call) : bool :=
  match c with
  | Orchestrator.CallFindTasks _ | Orchestrator.CallExecuteTask _ _ => true
  | Orchestrator.CallSleep _ => false
  end.

(** A bound on the turns an activation still takes before it is back at its
    [while] test: a discovery and at most two executions for the worker in
    hand and for each worker not yet visited, then the sleep. *)
Definition turns_left (k : Orchestrator.Await) : nat :=
  match k with
  | Orchestrator.Returned | Orchestrator.Aborted => 0
  | Orchestrator.AwaitSleep _ => 1
  | Orchestrator.AwaitExecuteTask _ _ tasks rest => 2 + length tasks + 3 * length rest
  | Orchestrator.AwaitFindTasks _ rest => 4 + 3 * length rest
  end.

Definition total_turns_left (m : Orchestrator.Machine) : nat :=
  foldr (fun k n => turns_left k + n) 0 (Orchestrator.loops m).

Definition timer_turns (l : list (nat * Orchestrator.Event)) : list Orchestrator.Input :=
  map (fun p => Orchestrator.Turn (fst p) (snd p)) l.

(** A cycle of the first activation in which every worker finds its task at
    time [now] and completes it ([Math.random()] returns 0.5). *)
Definition successful_cycle (now : Z) : list Orchestrator.Input :=
  [ Orchestrator.Turn 0 (Orchestrator.FindTasksDone now);
    Orchestrator.Turn 0 (Orchestrator.ExecuteTaskDone 0.5);
    Orchestrator.Turn 0 (Orchestrator.FindTasksDone (now + 3000));
    Orchestrator.Turn 0 (Orchestrator.ExecuteTaskDone 0.5);
    Orchestrator.Turn 0 (Orchestrator.FindTasksDone (now + 6000));
    Orchestrator.Turn 0 (Orchestrator.ExecuteTaskDone 0.5) ].

(** [start()], a fully successful cycle, the five-minute sleep, and a second
    fully successful cycle. *)
Definition two_successful_cycles : list Orchestrator.Input :=
  Orchestrator.Start :: successful_cycle 1700000001000
  ++ [Orchestrator.Turn 0 Orchestrator.TimerFired]
  ++ successful_cycle 1700000310000.

(** Every task [findTasks] produces pays 0.01; this is what the counters of
    a worker, of the aggregate, and the tasks an activation still holds look
    like as a consequence. *)
Definition pays_sample_reward (task : Task) : Prop := reward task = 0.01%float.

Definition await_sample_reward (k : Orchestrator.Await) : Prop :=
  match k with
  | Orchestrator.AwaitExecuteTask _ task tasks _ =>
      pays_sample_reward task /\ Forall pays_sample_reward tasks
  | _ => True
  end.

Definition agent_accumulated (a : AIAgent.t) : Prop :=
  AIAgent.totalEarnings (AIAgent.stats a)
  = accumulate (AIAgent.tasksCompleted (AIAgent.stats a)) 0.01.

Definition aggregate_accumulated (o : Orchestrator.t) : Prop :=
  Orchestrator.totalEarnings (Orchestrator.stats o)
  = accumulate (Orchestrator.tasksCompleted (Orchestrator.stats o)) 0.01.

Definition earnings_accumulated (m : Orchestrator.Machine) : Prop :=
  aggregate_accumulated (Orchestrator.this m) /\
  Forall agent_accumulated (Orchestrator.agents (Orchestrator.this m)) /\
  Forall await_sample_reward (Orchestrator.loops m).

(** Suspended inside the [try] block, in a call to a worker. *)
Definition in_body (k : Orchestrator.Await) : bool :=
  match k with
  | Orchestrator.AwaitFindTasks _ _ | Orchestrator.AwaitExecuteTask _ _ _ _ => true
  | Orchestrator.AwaitSleep _ | Orchestrator.Returned | Orchestrator.Aborted => false
  end.

(** The state two successful cycles lead to. *)
Definition after_two_successful_cycles : Orchestrator.Machine :=
  match Orchestrator.run two_successful_cycles Orchestrator.boot with
  | Some m => m
  | None => Orchestrator.boot
  end.

(** [start()], then the first worker's discovery completes: its
    [executeTask] is in flight. *)
Definition first_execution_in_flight : Orchestrator.Machine :=
  match Orchestrator.run [Orchestrator.Start;
                          Orchestrator.Turn 0 (Orchestrator.FindTasksDone 1700000001000)]
                         Orchestrator.boot with
  | Some m => m
  | None => Orchestrator.boot
  end.

(** What the timers deliver after that: the execution in flight completes,
    then the two workers not yet visited discover and execute. *)
Definition rest_of_first_cycle : list Orchestrator.Input :=
  [ Orchestrator.Turn 0 (Orchestrator.ExecuteTaskDone 0.5);
    Orchestrator.Turn 0 (Orchestrator.FindTasksDone 1700000004000);
    Orchestrator.Turn 0 (Orchestrator.ExecuteTaskDone 0.5);
    Orchestrator.Turn 0 (Orchestrator.FindTasksDone 1700000007000);
    Orchestrator.Turn 0 (Orchestrator.ExecuteTaskDone 0.5) ].

Definition sample_task (now : Z) (keywords : list string) : Task :=
  mkTask now "Sample Task" 0.01 keywords.

(** The workers an activation holds are workers of the pool. *)
Definition await_in_pool (n : nat) (k : Orchestrator.Await) : Prop :=
  match k with
  | Orchestrator.AwaitFindTasks a rest
  | Orchestrator.AwaitExecuteTask a _ _ rest => a < n /\ Forall (fun j => j < n) rest
  | Orchestrator.AwaitSleep _ | Orchestrator.Returned | Orchestrator.Aborted => True
  end.

Definition loops_in_pool (m : Orchestrator.Machine) : Prop :=
  Forall (await_in_pool (length (Orchestrator.agents (Orchestrator.this m))))
         (Orchestrator.loops m).

(** The event an activation is waiting for. *)
Definition awaited (k : Orchestrator.Await) : Orchestrator.Event :=
  match k with
  | Orchestrator.AwaitFindTasks _ _ => Orchestrator.FindTasksDone 0
  | Orchestrator.AwaitExecuteTask _ _ _ _ => Orchestrator.ExecuteTaskDone 0.5
  | Orchestrator.AwaitSleep _ | Orchestrator.Returned | Orchestrator.Aborted =>
      Orchestrator.TimerFired
  end.

(** ** Wallet start-up, the monitoring routes and [init] *)

Module Startup.

(** [WalletService.initialize]: [network] is the chain id that
    [provider.getNetwork()] settles to, [balance] what [getBalance()] settles
    to (it is only awaited on chain 1).  Every failure is caught and logged. *)
Definition initialize (this : WalletService.t) (network : JS.settled Z)
    (balance : JS.settled string) : WalletService.t :=
  match network with
  | JS.Resolved chainId =>
      if (chainId =? 1)%Z then
        match balance with
        | JS.Resolved _ => WalletService.mk (WalletService.address this) true
        | JS.Rejected _ => this
        end
      else this
  | JS.Rejected _ => this
  end.

Definition isReady (this : WalletService.t) : bool := WalletService.isInitialized this.
Definition getAddress (this : WalletService.t) : string := WalletService.address this.

(** The body of [GET /api/health]. *)
Record Health : Type := mkHealth {
  health_status : string;
  health_network : string;
  health_timestamp : string;
  services_wallet : bool;
  services_orchestrator : bool
}.

(** [walletService?.isReady() || false], [orchestrator?.isRunning || false] *)
Definition health (g : Api.Globals) (timestamp : string) : Health :=
  mkHealth "ok" "mainnet" timestamp
    (match Api.walletService g with Some w => isReady w | None => false end)
    (match Api.orchestrator g with
     | Some m => Orchestrator.isRunning (Orchestrator.this m)
     | None => false
     end).

Inductive WalletJson : Type :=
| WalletStatus (address balance network : string)
| WalletError (error : string).

(** [GET /api/wallet/status]; [balance] is what [walletService.getBalance()]
    settles to. *)
Definition wallet_status (g : Api.Globals) (balance : JS.settled string) : Z * WalletJson :=
  match Api.walletService g with
  | None => (503%Z, WalletError "Not initialized")
  | Some w =>
      match balance with
      | JS.Resolved b => (200%Z, WalletStatus (getAddress w) b "mainnet")
      | JS.Rejected e => (500%Z, WalletError (JS.message e))
      end
  end.

(** [init]: the orchestrator is constructed three seconds after the wallet,
    and [start()] is scheduled ten seconds after that. *)
Definition construct_orchestrator (g : Api.Globals) : Api.Globals :=
  Api.mkGlobals (Api.walletService g) (Some Orchestrator.boot).

(** The callback [() => orchestrator.start()] of that timer. *)
Definition scheduled_start (g : Api.Globals) : option Api.Globals :=
  match Api.orchestrator g with
  | Some m => Some (Api.mkGlobals (Api.walletService g) (Some (Orchestrator.start m)))
  | None => None
  end.

End Startup.

(** ** Vocabulary of the further statements *)

(** What the code never changes in a worker. *)
Definition identity (a : AIAgent.t) : string * list string * bool * float :=
  (AIAgent.name a, AIAgent.capabilities a, AIAgent.isActive a,
   AIAgent.successRate (AIAgent.stats a)).

Definition pool_identity : list (string * list string * bool * float) :=
  map identity (Orchestrator.agents Orchestrator.constructor).

(** An activation at worker [a] still has to visit exactly the workers after
    [a], in pool order, and holds no second task. *)
Definition visiting (k : Orchestrator.Await) : Prop :=
  match k with
  | Orchestrator.AwaitFindTasks a rest => a < 3 /\ rest = seq (S a) (2 - a)
  | Orchestrator.AwaitExecuteTask a _ tasks rest =>
      a < 3 /\ rest = seq (S a) (2 - a) /\ tasks = []
  | Orchestrator.AwaitSleep _ | Orchestrator.Returned | Orchestrator.Aborted => True
  end.

(** Executions an activation can still perform in its current cycle. *)
Definition visits_left (k : Orchestrator.Await) : nat :=
  match k with
  | Orchestrator.AwaitFindTasks a _ | Orchestrator.AwaitExecuteTask a _ _ _ => 3 - a
  | Orchestrator.AwaitSleep _ | Orchestrator.Returned | Orchestrator.Aborted => 0
  end.

Definition total (f : Orchestrator.Await -> nat) (l : list Orchestrator.Await) : nat :=
  foldr (fun k n => f k + n) 0 l.

Definition count_calls (p : Orchestrator.Call -> bool) (cs : list Orchestrator.Call) : nat :=
  foldr (fun c n => (if p c then 1 else 0) + n) 0 cs.

Definition is_sleep (c : Orchestrator.Call) : bool :=
  match c with Orchestrator.CallSleep _ => true | _ => false end.

Definition is_find (c : Orchestrator.Call) : bool :=
  match c with Orchestrator.CallFindTasks _ => true | _ => false end.

Definition is_execute (c : Orchestrator.Call) : bool :=
  match c with Orchestrator.CallExecuteTask _ _ => true | _ => false end.

Definition one_if (b : bool) : nat := if b then 1 else 0.

(** An activation that ended inside its [catch] clause. *)
Definition is_aborted (k : Orchestrator.Await) : bool :=
  match k with Orchestrator.Aborted => true | _ => false end.

Definition awaits_find (k : Orchestrator.Await) : bool :=
  match k with Orchestrator.AwaitFindTasks _ _ => true | _ => false end.

Definition awaits_execute (k : Orchestrator.Await) : bool :=
  match k with Orchestrator.AwaitExecuteTask _ _ _ _ => true | _ => false end.

Definition is_start (inp : Orchestrator.Input) : bool :=
  match inp with Orchestrator.Start => true | _ => false end.

Definition is_stop (inp : Orchestrator.Input) : bool :=
  match inp with Orchestrator.Stop => true | _ => false end.

Definition count_inputs (p : Orchestrator.Input -> bool) (inps : list Orchestrator.Input) : nat :=
  foldr (fun i n => one_if (p i) + n) 0 inps.

(** A ledger that rejects every address, and one whose chain refuses every
    transfer. *)
Definition rejecting_ethers : WalletService.Ethers :=
  WalletService.mkEthers
    (fun _ => false)
    (fun _ _ => JS.Resolved (WalletService.mkReceipt "0xTX" 1)).

Definition failing_ethers : WalletService.Ethers :=
  WalletService.mkEthers
    (fun _ => true)
    (fun _ _ => JS.Rejected (JS.mkError "insufficient funds")).

(** ** The rest of a cycle *)

(** The capabilities of the worker at position [a] of the pool. *)
Definition worker_capabilities (a : nat) : list string :=
  match pool_identity !! a with
  | Some p => p.1.1.2
  | None => []
  end.

(** The timers that serve the workers [js] in turn: the discovery of worker
    [j] completes at time [nows j], its execution with [Math.random()]
    returning [randoms j]. *)
Fixpoint visit_events (nows : nat -> Z) (randoms : nat -> float) (js : list nat)
  : list Orchestrator.Event :=
  match js with
  | [] => []
  | j :: js' =>
      Orchestrator.FindTasksDone (nows j) :: Orchestrator.ExecuteTaskDone (randoms j)
      :: visit_events nows randoms js'
  end.

(** The calls the loop makes on them: for each worker, its [findTasks] and
    then its [executeTask] on the task discovered. *)
Fixpoint visit_calls (nows : nat -> Z) (js : list nat) : list Orchestrator.Call :=
  match js with
  | [] => []
  | j :: js' =>
      Orchestrator.CallFindTasks j
      :: Orchestrator.CallExecuteTask j (sample_task (nows j) (worker_capabilities j))
      :: visit_calls nows js'
  end.

(** The timers an activation receives from where it is to its next [while]
    test, when its workers answer as above, and the calls it makes on the
    way. *)
Definition finishing_events (k : Orchestrator.Await) (nows : nat -> Z) (randoms : nat -> float)
  : list Orchestrator.Event :=
  match k with
  | Orchestrator.AwaitFindTasks a rest =>
      Orchestrator.FindTasksDone (nows a) :: Orchestrator.ExecuteTaskDone (randoms a)
      :: (visit_events nows randoms rest ++ [Orchestrator.TimerFired])%list
  | Orchestrator.AwaitExecuteTask a _ _ rest =>
      Orchestrator.ExecuteTaskDone (randoms a)
      :: (visit_events nows randoms rest ++ [Orchestrator.TimerFired])%list
  | Orchestrator.AwaitSleep _ => [Orchestrator.TimerFired]
  | Orchestrator.Returned | Orchestrator.Aborted => []
  end.

Definition finishing_calls (k : Orchestrator.Await) (nows : nat -> Z)
  : list Orchestrator.Call :=
  match k with
  | Orchestrator.AwaitFindTasks a rest =>
      Orchestrator.CallExecuteTask a (sample_task (nows a) (worker_capabilities a))
      :: (visit_calls nows rest ++ [Orchestrator.CallSleep 300000])%list
  | Orchestrator.AwaitExecuteTask _ _ _ rest =>
      (visit_calls nows rest ++ [Orchestrator.CallSleep 300000])%list
  | Orchestrator.AwaitSleep _ | Orchestrator.Returned | Orchestrator.Aborted => []
  end.

(** Discoveries that complete three seconds apart, one per worker, and
    executions that all succeed. *)
Definition sample_nows (j : nat) : Z := 1700000001000 + 3000 * Z.of_nat j.
Definition all_succeed (j : nat) : float := 0.5%float.

(** * Properties *)

(** ** The payout guard *)

Lemma strict_neq_spec (a b : option string) : JS.strict_neq a b = true <-> a <> b.
Proof.
  destruct a as [x|], b as [y|]; simpl; try (split; [discriminate | reflexivity]).
  - rewrite negb_true_iff. split.
    + intros H E. injection E as ->. rewrite String.eqb_refl in H. discriminate.
    + intros H. apply String.eqb_neq. intros ->. apply H. reflexivity.
  - split; [discriminate | intros H; contradiction H; reflexivity].
Qed.

Lemma strict_neq_refl (a : option string) : JS.strict_neq a a = false.
Proof. destruct a; simpl; [rewrite String.eqb_refl|]; reflexivity. Qed.

(** C2.  A payout request whose [x-api-key] header differs from the
    configured admin key is answered 403 "Unauthorized", whatever its body
    and whatever the state of the server, and no call is made to
    [walletService.sendETH]. *)
Theorem payout_unauthorized_rejected_first
    (StringToNumber : string -> float) (ObjectToString : JS.value -> string)
    (ethers : WalletService.Ethers) (ADMIN_API_KEY : option string)
    (g : Api.Globals) (req : Api.Request) :
  Api.x_api_key req <> ADMIN_API_KEY ->
  Api.payout StringToNumber ObjectToString ethers ADMIN_API_KEY g req
  = (Api.mkResponse 403 (Api.JFailure "Unauthorized"), []).
Proof.
  intros H. apply strict_neq_spec in H. unfold Api.payout. rewrite H. reflexivity.
Qed.

Lemma payout_unauthorized_rejected_first_witness :
  Api.payout no_StringToNumber no_ObjectToString accepting_ethers (Some "secret") ready_globals
    (Api.mkRequest (Some "guess") (payout_body (JS.str "0xVALID") (JS.number 1)))
  = (Api.mkResponse 403 (Api.JFailure "Unauthorized"), []).
Proof.
  apply payout_unauthorized_rejected_first. simpl. discriminate.
Defined.

(** C3, as stated, fails: an authorized request whose amount is the negative
    number -5 passes the guard, and [walletService.sendETH] is called with
    the net amount -4.9. *)
Lemma payout_negative_amount_reaches_ledger :
  Api.payout no_StringToNumber no_ObjectToString accepting_ethers (Some "secret") ready_globals
    (Api.mkRequest (Some "secret") (payout_body (JS.str "0xVALID") (JS.number (-5))))
  = (Api.mkResponse 200 (Api.JPayout "0xTX" 1 (-4.9) (-0.1)),
     [Api.mkTransfer (JS.str "0xVALID") (-4.9)]).
Proof. vm_compute. reflexivity. Qed.

(** C3, amended.  An authorized payout request whose amount is absent or
    otherwise falsy ([undefined], [null], [false], [0], [NaN], the empty
    string) is answered 400 "Missing fields" and no call is made to
    [walletService.sendETH]. *)
Theorem payout_falsy_amount_rejected
    (StringToNumber : string -> float) (ObjectToString : JS.value -> string)
    (ethers : WalletService.Ethers) (ADMIN_API_KEY : option string)
    (g : Api.Globals) (req : Api.Request) (toAddress amount : JS.value) :
  Api.x_api_key req = ADMIN_API_KEY ->
  JS.get (Api.body req) "toAddress" = Some toAddress ->
  JS.get (Api.body req) "amount" = Some amount ->
  JS.truthy amount = false ->
  Api.payout StringToNumber ObjectToString ethers ADMIN_API_KEY g req
  = (Api.mkResponse 400 (Api.JError "Missing fields"), []).
Proof.
  intros Hk Ht Ha Hf. unfold Api.payout.
  rewrite Hk, strict_neq_refl, Ht, Ha, Hf, orb_true_r. reflexivity.
Qed.

Lemma payout_falsy_amount_rejected_witness :
  Api.payout no_StringToNumber no_ObjectToString accepting_ethers (Some "secret") ready_globals
    (Api.mkRequest (Some "secret") (JS.object [("toAddress", JS.str "0xVALID")]))
  = (Api.mkResponse 400 (Api.JError "Missing fields"), []).
Proof.
  apply (payout_falsy_amount_rejected _ _ _ _ _ _ (JS.str "0xVALID") JS.undefined);
    reflexivity.
Defined.

(** C5.  For an authorized payout of amount 100 the fee is 2, the net amount
    is 98, and [walletService.sendETH] is called once, with the amount 98. *)
Theorem payout_100_fee_2_net_98
    (StringToNumber : string -> float) (ObjectToString : JS.value -> string)
    (ethers : WalletService.Ethers) (ADMIN_API_KEY : option string)
    (g : Api.Globals) (req : Api.Request) (toAddress : JS.value) (w : WalletService.t) :
  Api.x_api_key req = ADMIN_API_KEY ->
  JS.get (Api.body req) "toAddress" = Some toAddress ->
  JS.truthy toAddress = true ->
  JS.get (Api.body req) "amount" = Some (JS.number 100) ->
  Api.walletService g = Some w ->
  Api.fee_of StringToNumber ObjectToString (JS.number 100) = 2%float /\
  Api.netAmount_of StringToNumber ObjectToString (JS.number 100) = 98%float /\
  snd (Api.payout StringToNumber ObjectToString ethers ADMIN_API_KEY g req)
  = [Api.mkTransfer toAddress 98] /\
  (forall r, WalletService.sendETH ethers w toAddress 98 = JS.Resolved r ->
     fst (Api.payout StringToNumber ObjectToString ethers ADMIN_API_KEY g req)
     = Api.mkResponse 200
         (Api.JPayout (WalletService.sent_txHash r) (WalletService.sent_blockNumber r) 98 2)).
Proof.
  intros Hk Ht Htt Ha Hw.
  assert (Hfee : Api.fee_of StringToNumber ObjectToString (JS.number 100) = 2%float)
    by (vm_compute; reflexivity).
  assert (Hnet : Api.netAmount_of StringToNumber ObjectToString (JS.number 100) = 98%float)
    by (vm_compute; reflexivity).
  split; [exact Hfee|]. split; [exact Hnet|].
  unfold Api.payout.
  rewrite Hk, strict_neq_refl, Ht, Ha, Htt, Hw, Hfee, Hnet. simpl.
  split.
  - destruct (WalletService.sendETH ethers w toAddress 98); reflexivity.
  - intros r ->. reflexivity.
Qed.

Lemma payout_100_fee_2_net_98_witness :
  snd (Api.payout no_StringToNumber no_ObjectToString accepting_ethers (Some "secret")
         ready_globals
         (Api.mkRequest (Some "secret") (payout_body (JS.str "0xVALID") (JS.number 100))))
  = [Api.mkTransfer (JS.str "0xVALID") 98].
Proof.
  eapply (payout_100_fee_2_net_98 no_StringToNumber no_ObjectToString accepting_ethers
            (Some "secret") ready_globals _ (JS.str "0xVALID")); reflexivity.
Defined.

(** C10.  Before [init] has constructed the orchestrator, an emergency stop
    carrying the right admin key throws a TypeError out of its handler, where
    the stats and agents routes answer 503 "Not initialized". *)
Theorem emergency_stop_before_init_throws
    (ADMIN_API_KEY : option string) (w : option WalletService.t)
    (req : Api.Request) (lastSync : string) :
  Api.x_api_key req = ADMIN_API_KEY ->
  Api.emergency_stop ADMIN_API_KEY (Api.mkGlobals w None) req
  = (Api.Uncaught (JS.mkError "Cannot read properties of undefined (reading 'stop')"),
     Api.mkGlobals w None) /\
  Api.stats (Api.mkGlobals w None) lastSync
  = Api.Responds (Api.mkResponse 503 (Api.JError "Not initialized")) /\
  Api.agents (Api.mkGlobals w None)
  = Api.Responds (Api.mkResponse 503 (Api.JError "Not initialized")).
Proof.
  intros Hk. unfold Api.emergency_stop. rewrite Hk, strict_neq_refl. simpl. auto.
Qed.

Lemma emergency_stop_before_init_throws_witness :
  Api.emergency_stop (Some "secret") early_globals (Api.mkRequest (Some "secret") (JS.object []))
  = (Api.Uncaught (JS.mkError "Cannot read properties of undefined (reading 'stop')"),
     early_globals).
Proof.
  apply (emergency_stop_before_init_throws (Some "secret") None
           (Api.mkRequest (Some "secret") (JS.object [])) "12:00:00").
  reflexivity.
Defined.

(** ** The scheduling loop *)

Import Orchestrator.

Lemma reachable_ind' (P : Machine -> Prop) :
  P boot ->
  (forall inp m m', P m -> step inp m = Some m' -> P m') ->
  forall m, reachable m -> P m.
Proof.
  intros Hboot Hstep m [inps Hrun].
  revert Hrun. generalize boot Hboot. clear Hboot.
  induction inps as [|inp inps IH]; intros m0 H0 Hrun; simpl in Hrun.
  - injection Hrun as <-. exact H0.
  - destruct (step inp m0) as [m1|] eqn:E; [|discriminate].
    eapply IH; [|exact Hrun]. eapply Hstep; eassumption.
Qed.

Lemma reachable_step (inp : Input) (m m' : Machine) :
  reachable m -> step inp m = Some m' -> reachable m'.
Proof.
  intros [inps Hrun] Hs. exists (inps ++ [inp])%list.
  revert Hrun. generalize boot.
  induction inps as [|i inps IH]; intros m0 Hrun; simpl in *.
  - injection Hrun as ->. rewrite Hs. reflexivity.
  - destruct (step i m0); [|discriminate]. apply IH. exact Hrun.
Qed.

Lemma next_agent_this (o : t) (rest : list nat) : (next_agent o rest).1.1 = o.
Proof. destruct rest; reflexivity. Qed.

Lemma next_task_this (o : t) (a : nat) (tasks : list Task) (rest : list nat) :
  (next_task o a tasks rest).1.1 = o.
Proof. destruct tasks; [apply next_agent_this | reflexivity]. Qed.

Lemma catch_this (o : t) (error : JS.thrown) : (catch o error).1.1 = o.
Proof. unfold catch. destruct (JS.reads_message error); reflexivity. Qed.

Lemma catch_cases (o : t) (error : JS.thrown) :
  catch o error = (o, [CallSleep 60000], AwaitSleep 60000) \/ catch o error = (o, [], Aborted).
Proof. unfold catch. destruct (JS.reads_message error); [left | right]; reflexivity. Qed.

Lemma runCycle_this (o : t) :
  (runCycle o).1.1
  = if isRunning o
    then set_stats (mkStats (totalEarnings (stats o)) (tasksCompleted (stats o))
                            (cycleCount (stats o) + 1)) o
    else o.
Proof. unfold runCycle. destruct (isRunning o); [apply next_agent_this | reflexivity]. Qed.

Lemma runCycle_uncredited (o : t) : uncredited o (runCycle o).1.1.
Proof. rewrite runCycle_this. destruct (isRunning o); repeat split. Qed.

Lemma uncredited_refl (o : t) : uncredited o o.
Proof. repeat split. Qed.

(** What one turn does to the orchestrator object. *)
Lemma resume_this (o o' : t) (k k' : Await) (ev : Event) (cs : list Call) :
  resume o k ev = Some (o', cs, k') ->
  match k, ev with
  | AwaitExecuteTask a task _ _, ExecuteTaskDone random =>
      exists agent, agents o !! a = Some agent /\
        o' = record_result (AIAgent.executeTask agent task random).2
               (set_agents (<[a := (AIAgent.executeTask agent task random).1]> (agents o)) o)
  | AwaitSleep _, TimerFired => o' = (runCycle o).1.1
  | _, _ => o' = o
  end.
Proof.
  intros H. destruct k, ev; simpl in H; try discriminate.
  - destruct (agents o !! agent); [|discriminate].
    injection H as H _ _. symmetry. exact H.
  - injection H as H. apply (f_equal (fun p => p.1.1)) in H.
    rewrite catch_this in H. symmetry. exact H.
  - destruct (agents o !! agent) as [ag|]; [|discriminate].
    exists ag. split; [reflexivity|].
    destruct (AIAgent.executeTask ag task random) as [ag' res].
    injection H as H. apply (f_equal (fun p => p.1.1)) in H.
    rewrite next_task_this in H. simpl in *. symmetry. exact H.
  - injection H as H. apply (f_equal (fun p => p.1.1)) in H.
    rewrite catch_this in H. symmetry. exact H.
  - injection H as H. apply (f_equal (fun p => p.1.1)) in H. symmetry. exact H.
Qed.

Lemma resume_coupled (o o' : t) (k k' : Await) (ev : Event) (cs : list Call) :
  resume o k ev = Some (o', cs, k') ->
  uncredited o o' \/ exists a r, credited a r o o'.
Proof.
  intros H. apply resume_this in H.
  destruct k, ev; subst; try (left; apply uncredited_refl).
  - destruct H as (ag & Hl & ->). unfold AIAgent.executeTask.
    destruct (0.25 <? random)%float; simpl.
    + right. exists agent, (reward task), ag. repeat split; assumption.
    + left. unfold record_result, uncredited. simpl.
      rewrite list_insert_id by assumption. repeat split.
  - left. apply runCycle_uncredited.
Qed.

Lemma step_coupled (inp : Input) (m m' : Machine) :
  step inp m = Some m' ->
  uncredited (this m) (this m') \/ exists a r, credited a r (this m) (this m').
Proof.
  destruct inp as [| |i ev]; simpl.
  - intros [= <-]. left. unfold start.
    destruct (isRunning (this m)) eqn:E; [apply uncredited_refl|].
    pose proof (runCycle_uncredited (set_isRunning true (this m))) as H.
    destruct (runCycle (set_isRunning true (this m))) as [[o cs] k]. exact H.
  - intros [= <-]. left. repeat split.
  - unfold turn. destruct (loops m !! i) as [k|]; [|discriminate].
    destruct (resume (this m) k ev) as [[[o cs] k']|] eqn:E; [|discriminate].
    intros [= <-]. simpl. eapply resume_coupled. exact E.
Qed.

Lemma workers_tasksCompleted_insert (l : list AIAgent.t) (a : nat) (agent agent' : AIAgent.t) :
  l !! a = Some agent ->
  (workers_tasksCompleted (<[a := agent']> l) + AIAgent.tasksCompleted (AIAgent.stats agent)
   = workers_tasksCompleted l + AIAgent.tasksCompleted (AIAgent.stats agent'))%N.
Proof.
  revert a. induction l as [|x l IH]; intros [|a] H; simpl in *; try discriminate.
  - injection H as ->. lia.
  - specialize (IH a H). lia.
Qed.

Lemma coupled_preserves_sum (o o' : t) :
  (uncredited o o' \/ exists a r, credited a r o o') ->
  tasksCompleted (stats o) = workers_tasksCompleted (agents o) ->
  tasksCompleted (stats o') = workers_tasksCompleted (agents o').
Proof.
  intros [(Ha & Ht & _) | (a & r & ag & Hl & Ha & Ht & _)] Hinv.
  - rewrite Ha, Ht. exact Hinv.
  - rewrite Ha, Ht, Hinv.
    pose proof (workers_tasksCompleted_insert (agents o) a ag
      (AIAgent.mk (AIAgent.name ag) (AIAgent.capabilities ag)
         (AIAgent.mkStats (AIAgent.tasksCompleted (AIAgent.stats ag) + 1)
            (AIAgent.totalEarnings (AIAgent.stats ag) + r)%float
            (AIAgent.successRate (AIAgent.stats ag)))
         (AIAgent.isActive ag)) Hl) as H.
    simpl in H. lia.
Qed.

Lemma tasks_sum_invariant (m : Machine) :
  reachable m ->
  tasksCompleted (stats (this m)) = workers_tasksCompleted (agents (this m)).
Proof.
  revert m. apply reachable_ind'.
  - reflexivity.
  - intros inp m m' IH Hs. eapply coupled_preserves_sum; [|exact IH].
    eapply step_coupled. exact Hs.
Qed.

Lemma snapshot_sum (l : list AIAgent.t) :
  foldr N.add 0%N (map AIAgent.snap_tasksCompleted (map AIAgent.getStats l))
  = workers_tasksCompleted l.
Proof. induction l as [|a l IH]; simpl; [reflexivity | rewrite IH; reflexivity]. Qed.

(** C1, as stated, fails on [totalEarnings]: after two cycles in which every
    task succeeds, [getStats] reports an aggregate of 0.060000000000000005
    and three workers at 0.02 each, whose sum is 0.06, whether it is taken
    with JavaScript's [+] or over the rationals. *)
Lemma aggregate_earnings_differ_from_workers_sum :
  exists m, run two_successful_cycles boot = Some m /\
    let s := getStats (this m) "12:00:00" in
    snap_totalEarnings s = 0.060000000000000005%float /\
    map AIAgent.snap_totalEarnings (snap_agents s) = [0.02; 0.02; 0.02]%float /\
    workers_totalEarnings (agents (this m)) = 0.06%float /\
    snap_totalEarnings s <> workers_totalEarnings (agents (this m)) /\
    JS.exact (snap_totalEarnings s) = Some (8646911284551353 # 144115188075855872) /\
    workers_totalEarnings_exact (agents (this m))
    = Some (17293822569102705 # 288230376151711744).
Proof.
  eexists. split; [vm_compute; reflexivity|].
  cbv zeta. repeat split; try (vm_compute; reflexivity).
  intros H. apply (f_equal (fun x => PrimFloat.eqb x 0.06)) in H.
  vm_compute in H. discriminate.
Qed.

(** C1, amended.  At every observation point the aggregate [tasksCompleted]
    that [getStats] reports is the sum of the workers' [tasksCompleted], and
    every turn of the event loop either leaves the counters of all workers
    and of the aggregate alone, or adds one task and the same reward, with
    JavaScript's [+], to exactly one worker and to the aggregate. *)
Theorem aggregate_tasks_match_workers (m : Machine) :
  reachable m ->
  (forall lastSync,
     let s := getStats (this m) lastSync in
     snap_tasksCompleted s
     = foldr N.add 0%N (map AIAgent.snap_tasksCompleted (snap_agents s))) /\
  (forall inp m', step inp m = Some m' ->
     uncredited (this m) (this m') \/ exists a r, credited a r (this m) (this m')).
Proof.
  intros Hr. split.
  - intros lastSync. simpl. rewrite snapshot_sum. apply tasks_sum_invariant. exact Hr.
  - intros inp m'. apply step_coupled.
Qed.

Lemma aggregate_tasks_match_workers_witness :
  snap_tasksCompleted (getStats (this after_two_successful_cycles) "12:00:00")
  = foldr N.add 0%N
      (map AIAgent.snap_tasksCompleted
         (snap_agents (getStats (this after_two_successful_cycles) "12:00:00"))).
Proof.
  refine (proj1 (aggregate_tasks_match_workers after_two_successful_cycles _) "12:00:00").
  exists two_successful_cycles. vm_compute. reflexivity.
Defined.

Lemma accumulate_succ (n : N) (r : float) :
  accumulate (n + 1) r = (accumulate n r + r)%float.
Proof. unfold accumulate. rewrite N.add_1_r, N.iter_succ. reflexivity. Qed.

Lemma next_agent_sample_reward (o : t) (rest : list nat) :
  await_sample_reward (next_agent o rest).2.
Proof. destruct rest; exact I. Qed.

Lemma next_task_sample_reward (o : t) (a : nat) (tasks : list Task) (rest : list nat) :
  Forall pays_sample_reward tasks ->
  await_sample_reward (next_task o a tasks rest).2.
Proof.
  intros H. destruct tasks as [|task tasks]; [apply next_agent_sample_reward|].
  simpl. apply Forall_cons in H. exact H.
Qed.

Lemma runCycle_sample_reward (o : t) : await_sample_reward (runCycle o).2.
Proof.
  unfold runCycle. destruct (isRunning o); [apply next_agent_sample_reward | exact I].
Qed.

Lemma runCycle_accumulated (o : t) :
  aggregate_accumulated o -> Forall agent_accumulated (agents o) ->
  aggregate_accumulated (runCycle o).1.1 /\ Forall agent_accumulated (agents (runCycle o).1.1).
Proof.
  intros Hagg Hag. rewrite runCycle_this. destruct (isRunning o); split; assumption.
Qed.

Lemma resume_accumulated (o o' : t) (k k' : Await) (ev : Event) (cs : list Call) :
  resume o k ev = Some (o', cs, k') ->
  aggregate_accumulated o -> Forall agent_accumulated (agents o) -> await_sample_reward k ->
  aggregate_accumulated o' /\ Forall agent_accumulated (agents o') /\ await_sample_reward k'.
Proof.
  intros H Hagg Hag Hk.
  assert (Hk' : await_sample_reward k').
  { destruct k, ev; simpl in H; try discriminate.
    - destruct (agents o !! agent); [|discriminate]. injection H as _ _ <-.
      simpl. split; [reflexivity | constructor].
    - injection H as H. apply (f_equal snd) in H. simpl in H. rewrite <- H.
      unfold catch. destruct (JS.reads_message error); exact I.
    - destruct (agents o !! agent) as [ag|]; [|discriminate].
      destruct (AIAgent.executeTask ag task random) as [ag' res].
      injection H as H. apply (f_equal snd) in H. simpl in H. rewrite <- H.
      apply next_task_sample_reward. apply Hk.
    - injection H as H. apply (f_equal snd) in H. simpl in H. rewrite <- H.
      unfold catch. destruct (JS.reads_message error); exact I.
    - injection H as H. apply (f_equal snd) in H. simpl in H. rewrite <- H.
      apply runCycle_sample_reward. }
  apply resume_this in H.
  destruct k, ev; subst; try (repeat split; assumption).
  - destruct H as (ag & Hl & ->). destruct Hk as [Hrw _]. red in Hrw.
    pose proof (proj1 (Forall_lookup _ _) Hag _ _ Hl) as Hagent. red in Hagent.
    unfold AIAgent.executeTask. destruct (0.25 <? random)%float; simpl.
    + repeat split; [| |exact Hk'].
      * red. simpl. rewrite accumulate_succ, Hrw. red in Hagg. rewrite Hagg. reflexivity.
      * apply Forall_insert; [exact Hag|]. red. simpl.
        rewrite accumulate_succ, Hrw, Hagent. reflexivity.
    + unfold record_result. simpl. rewrite list_insert_id by assumption.
      repeat split; assumption.
  - destruct (runCycle_accumulated o Hagg Hag) as [H1 H2]. repeat split; assumption.
Qed.

Lemma earnings_accumulated_reachable (m : Machine) :
  reachable m -> earnings_accumulated m.
Proof.
  revert m. apply reachable_ind'.
  - repeat split; simpl; repeat constructor.
  - intros inp m m' (Hagg & Hag & Hl) Hs. destruct inp as [| |i ev]; simpl in Hs.
    + injection Hs as <-. unfold start.
      destruct (isRunning (this m)) eqn:E; [repeat split; assumption|].
      pose proof (runCycle_accumulated (set_isRunning true (this m)) Hagg Hag) as [H1 H2].
      pose proof (runCycle_sample_reward (set_isRunning true (this m))) as H3.
      destruct (runCycle (set_isRunning true (this m))) as [[o cs] k].
      repeat split; simpl in *; try assumption.
      apply Forall_app. split; [exact Hl | constructor; [exact H3 | constructor]].
    + injection Hs as <-. repeat split; assumption.
    + unfold turn in Hs. destruct (loops m !! i) as [k|] eqn:Ek; [|discriminate].
      destruct (resume (this m) k ev) as [[[o cs] k']|] eqn:E; [|discriminate].
      injection Hs as <-.
      pose proof (proj1 (Forall_lookup _ _) Hl _ _ Ek) as Hk.
      destruct (resume_accumulated _ _ _ _ _ _ E Hagg Hag Hk) as (H1 & H2 & H3).
      repeat split; simpl; try assumption.
      apply Forall_insert; assumption.
Qed.

(** C9, as stated, fails: after two cycles in which every task succeeds the
    aggregate has 6 tasks and [totalEarnings] 0.060000000000000005, while
    [0.01 * 6] is 0.06, in JavaScript and over the rationals alike. *)
Lemma aggregate_earnings_not_product :
  exists m, run two_successful_cycles boot = Some m /\
    tasksCompleted (stats (this m)) = 6%N /\
    totalEarnings (stats (this m)) = 0.060000000000000005%float /\
    (0.01 * 6)%float = 0.06%float /\
    totalEarnings (stats (this m)) <> (0.01 * 6)%float /\
    JS.exact (totalEarnings (stats (this m))) = Some (8646911284551353 # 144115188075855872) /\
    ~ (8646911284551353 # 144115188075855872 == 6 # 100)%Q.
Proof.
  eexists. split; [vm_compute; reflexivity|].
  repeat split; try (vm_compute; reflexivity).
  - intros H. apply (f_equal (fun x => PrimFloat.eqb x 0.06)) in H.
    vm_compute in H. discriminate.
  - intros H. vm_compute in H. discriminate.
Qed.

(** C9, amended.  At every observation point, for each worker and for the
    aggregate, [totalEarnings] is the result of adding 0.01 to 0 with
    JavaScript's [+] once per completed task. *)
Theorem earnings_are_accumulated_rewards (m : Machine) :
  reachable m ->
  totalEarnings (stats (this m)) = accumulate (tasksCompleted (stats (this m))) 0.01 /\
  (forall i agent, agents (this m) !! i = Some agent ->
     AIAgent.totalEarnings (AIAgent.stats agent)
     = accumulate (AIAgent.tasksCompleted (AIAgent.stats agent)) 0.01).
Proof.
  intros Hr. destruct (earnings_accumulated_reachable m Hr) as (Hagg & Hag & _).
  split; [exact Hagg|].
  intros i agent Hl. exact (proj1 (Forall_lookup _ _) Hag _ _ Hl).
Qed.

Lemma earnings_are_accumulated_rewards_witness :
  totalEarnings (stats (this after_two_successful_cycles))
  = accumulate (tasksCompleted (stats (this after_two_successful_cycles))) 0.01.
Proof.
  apply (earnings_are_accumulated_rewards after_two_successful_cycles).
  exists two_successful_cycles. vm_compute. reflexivity.
Defined.

(** ** Workers *)

(** C6.  When [Math.random()] exceeds 0.25, [executeTask] adds one to the
    worker's [tasksCompleted] and [task.reward] to its [totalEarnings], and
    returns [{success: true, earnings: task.reward}]; otherwise it leaves the
    worker as it was and returns [{success: false}]. *)
Theorem executeTask_outcome (agent : AIAgent.t) (task : Task) (random : float) :
  ((0.25 <? random)%float = true ->
     let (agent', result) := AIAgent.executeTask agent task random in
     AIAgent.tasksCompleted (AIAgent.stats agent')
     = (AIAgent.tasksCompleted (AIAgent.stats agent) + 1)%N /\
     AIAgent.totalEarnings (AIAgent.stats agent')
     = (AIAgent.totalEarnings (AIAgent.stats agent) + reward task)%float /\
     AIAgent.successRate (AIAgent.stats agent') = AIAgent.successRate (AIAgent.stats agent) /\
     AIAgent.name agent' = AIAgent.name agent /\
     AIAgent.capabilities agent' = AIAgent.capabilities agent /\
     AIAgent.isActive agent' = AIAgent.isActive agent /\
     result = AIAgent.mkResult true (Some (reward task))) /\
  ((0.25 <? random)%float = false ->
     AIAgent.executeTask agent task random = (agent, AIAgent.mkResult false None)).
Proof.
  unfold AIAgent.executeTask. split; intros ->.
  - simpl. repeat split.
  - reflexivity.
Qed.

Lemma executeTask_outcome_witness :
  AIAgent.executeTask (AIAgent.constructor "GitcoinAgent" ["smart-contract"; "web3"])
    (sample_task 1700000001000 ["smart-contract"; "web3"]) 0.1
  = (AIAgent.constructor "GitcoinAgent" ["smart-contract"; "web3"],
     AIAgent.mkResult false None).
Proof.
  apply (proj2 (executeTask_outcome
                  (AIAgent.constructor "GitcoinAgent" ["smart-contract"; "web3"])
                  (sample_task 1700000001000 ["smart-contract"; "web3"]) 0.1)).
  vm_compute. reflexivity.
Defined.

(** ** Errors, stop and start *)

Lemma next_agent_active (o : t) (rest : list nat) : is_active (next_agent o rest).2 = true.
Proof. destruct rest; reflexivity. Qed.

Lemma next_task_active (o : t) (a : nat) (tasks : list Task) (rest : list nat) :
  is_active (next_task o a tasks rest).2 = true.
Proof. destruct tasks; [apply next_agent_active | reflexivity]. Qed.

Lemma runCycle_isRunning (o : t) : isRunning (runCycle o).1.1 = isRunning o.
Proof. rewrite runCycle_this. destruct (isRunning o) eqn:E; simpl; congruence. Qed.

Lemma resume_isRunning (o o' : t) (k k' : Await) (ev : Event) (cs : list Call) :
  resume o k ev = Some (o', cs, k') -> isRunning o' = isRunning o.
Proof.
  intros H. apply resume_this in H. destruct k, ev; subst; try reflexivity.
  - destruct H as (ag & _ & ->). unfold record_result.
    destruct (AIAgent.success _); reflexivity.
  - apply runCycle_isRunning.
Qed.

Lemma resume_next (o o' : t) (k k' : Await) (ev : Event) (cs : list Call) :
  resume o k ev = Some (o', cs, k') ->
  match k, ev with
  | AwaitFindTasks a rest, FindTasksDone now =>
      exists agent, agents o !! a = Some agent /\
        k' = (next_task o a (take 2 (AIAgent.findTasks agent now)) rest).2
  | AwaitExecuteTask a _ tasks rest, ExecuteTaskDone _ =>
      exists o1, k' = (next_task o1 a tasks rest).2
  | AwaitSleep _, TimerFired => k' = (runCycle o).2
  | _, Throws error => k' = (catch o error).2
  | _, _ => True
  end.
Proof.
  intros H. destruct k, ev; simpl in H; try discriminate.
  - destruct (agents o !! agent) as [ag|]; [|discriminate]. exists ag.
    split; [reflexivity|]. injection H as _ _ <-. reflexivity.
  - injection H as H. apply (f_equal snd) in H. symmetry. exact H.
  - destruct (agents o !! agent) as [ag|]; [|discriminate].
    destruct (AIAgent.executeTask ag task random) as [ag' res].
    injection H as H. apply (f_equal snd) in H. simpl in H. eexists. symmetry. exact H.
  - injection H as H. apply (f_equal snd) in H. symmetry. exact H.
  - injection H as H. apply (f_equal snd) in H. symmetry. exact H.
Qed.

Lemma resume_active (o o' : t) (k k' : Await) (ev : Event) (cs : list Call) :
  isRunning o = true -> resume o k ev = Some (o', cs, k') ->
  is_active k' = true \/ exists error, ev = Throws error /\ JS.reads_message error = false.
Proof.
  intros Hrun H. pose proof (resume_next _ _ _ _ _ _ H) as Hn.
  destruct k, ev; simpl in H; try discriminate; clear H; subst.
  - destruct Hn as (ag & _ & ->). left. reflexivity.
  - unfold catch. destruct (JS.reads_message error) eqn:E; [left; reflexivity|].
    right. exists error. split; [reflexivity | exact E].
  - destruct Hn as (o1 & ->). left. apply next_task_active.
  - unfold catch. destruct (JS.reads_message error) eqn:E; [left; reflexivity|].
    right. exists error. split; [reflexivity | exact E].
  - left. unfold runCycle. rewrite Hrun. apply next_agent_active.
Qed.

Lemma next_task_turns_left (o : t) (a : nat) (tasks : list Task) (rest : list nat) :
  turns_left (next_task o a tasks rest).2 < 2 + length tasks + 3 * length rest.
Proof. destruct tasks, rest; simpl; lia. Qed.

Lemma resume_stopped (o o' : t) (k k' : Await) (ev : Event) (cs : list Call) :
  isRunning o = false -> resume o k ev = Some (o', cs, k') ->
  cycleCount (stats o') = cycleCount (stats o) /\ turns_left k' < turns_left k.
Proof.
  intros Hrun H. split.
  - apply resume_this in H. destruct k, ev; subst; try reflexivity.
    + destruct H as (ag & _ & ->). unfold record_result.
      destruct (AIAgent.success _); reflexivity.
    + rewrite runCycle_this, Hrun. reflexivity.
  - pose proof (resume_next _ _ _ _ _ _ H) as Hn.
    destruct k, ev; simpl in H; try discriminate; clear H.
    + destruct Hn as (ag & _ & ->). simpl. lia.
    + subst. unfold catch. destruct (JS.reads_message error); simpl; lia.
    + destruct Hn as (o1 & ->). apply next_task_turns_left.
    + subst. unfold catch. destruct (JS.reads_message error); simpl; lia.
    + subst. unfold runCycle. rewrite Hrun. simpl. lia.
Qed.

Lemma turns_left_insert (l : list Await) (i : nat) (k k' : Await) :
  l !! i = Some k ->
  foldr (fun k n => turns_left k + n) 0 (<[i := k']> l) + turns_left k
  = foldr (fun k n => turns_left k + n) 0 l + turns_left k'.
Proof.
  revert i. induction l as [|x l IH]; intros [|i] H; simpl in *; try discriminate.
  - injection H as ->. lia.
  - specialize (IH i H). lia.
Qed.

Lemma stopped_turn (i : nat) (ev : Event) (m m' : Machine) :
  isRunning (this m) = false -> turn i ev m = Some m' ->
  isRunning (this m') = false /\
  cycleCount (stats (this m')) = cycleCount (stats (this m)) /\
  total_turns_left m' < total_turns_left m.
Proof.
  intros Hrun H. unfold turn in H.
  destruct (loops m !! i) as [k|] eqn:Ek; [|discriminate].
  destruct (resume (this m) k ev) as [[[o cs] k']|] eqn:E; [|discriminate].
  injection H as <-. simpl.
  destruct (resume_stopped _ _ _ _ _ _ Hrun E) as [Hc Ht].
  split; [rewrite (resume_isRunning _ _ _ _ _ _ E); exact Hrun|].
  split; [exact Hc|].
  unfold total_turns_left. simpl.
  pose proof (turns_left_insert (loops m) i k k' Ek). lia.
Qed.

Lemma stopped_turns (turns : list (nat * Event)) (m m' : Machine) :
  isRunning (this m) = false -> run (timer_turns turns) m = Some m' ->
  isRunning (this m') = false /\
  cycleCount (stats (this m')) = cycleCount (stats (this m)) /\
  total_turns_left m' + length turns <= total_turns_left m.
Proof.
  revert m. induction turns as [|[i ev] turns IH]; intros m Hrun H; simpl in H.
  - injection H as <-. simpl. repeat split; [exact Hrun | lia].
  - destruct (turn i ev m) as [m1|] eqn:E; [|discriminate].
    destruct (stopped_turn i ev m m1 Hrun E) as (H1 & H2 & H3).
    destruct (IH m1 H1 H) as (H4 & H5 & H6).
    repeat split; [exact H4 | congruence | simpl; lia].
Qed.

Lemma start_while_running (m : Machine) : isRunning (this m) = true -> start m = m.
Proof. intros H. unfold start. rewrite H. reflexivity. Qed.

Lemma start_when_idle (m : Machine) :
  isRunning (this m) = false ->
  exists k, is_active k = true /\
    loops (start m) = (loops m ++ [k])%list /\
    isRunning (this (start m)) = true /\
    agents (this (start m)) = agents (this m) /\
    totalEarnings (stats (this (start m))) = totalEarnings (stats (this m)) /\
    tasksCompleted (stats (this (start m))) = tasksCompleted (stats (this m)) /\
    cycleCount (stats (this (start m))) = (cycleCount (stats (this m)) + 1)%N.
Proof.
  intros H. unfold start. rewrite H.
  pose proof (runCycle_this (set_isRunning true (this m))) as Ht.
  pose proof (next_agent_active
    (set_stats (mkStats (totalEarnings (stats (this m))) (tasksCompleted (stats (this m)))
                        (cycleCount (stats (this m)) + 1)) (set_isRunning true (this m)))
    (active_agents (set_isRunning true (this m)))) as Ha.
  unfold runCycle in *. simpl in *.
  destruct (next_agent _ _) as [[o cs] k]. simpl in *. subst o.
  exists k. repeat split. exact Ha.
Qed.

Lemma active_loops_app (m : Machine) (k : Await) :
  is_active k = true ->
  length (filter (fun k => is_active k = true) (loops m ++ [k])%list) = S (active_loops m).
Proof.
  intros H. unfold active_loops. rewrite filter_app, length_app.
  rewrite filter_cons_True by exact H. simpl. lia.
Qed.

(** C4, as stated, fails: [stop()] is called while the first worker's
    [executeTask] is in flight; once that step completes, the loop goes on
    to discovery and execution for the second and the third worker, and to
    its five-minute sleep, and only then returns. *)
Lemma stop_mid_cycle_still_discovers_and_executes :
  loops first_execution_in_flight
  = [AwaitExecuteTask 0 (sample_task 1700000001000 ["smart-contract"; "web3"]) [] [1; 2]] /\
  exists m, run rest_of_first_cycle (stop first_execution_in_flight) = Some m /\
    isRunning (this m) = false /\
    calls m
    = (calls (stop first_execution_in_flight)
       ++ [ CallFindTasks 1;
            CallExecuteTask 1 (sample_task 1700000004000 ["frontend"; "react"]);
            CallFindTasks 2;
            CallExecuteTask 2 (sample_task 1700000007000 ["testing"; "security"]);
            CallSleep 300000 ])%list /\
    loops m = [AwaitSleep 300000] /\
    tasksCompleted (stats (this m)) = 3%N.
Proof.
  split; [vm_compute; reflexivity|].
  eexists. split; [vm_compute; reflexivity|].
  repeat split; vm_compute; reflexivity.
Qed.


(** X21.  An error thrown by a worker call inside the cycle body, when it is
    an [Error] or any value other than [null] and [undefined], is caught:
    the orchestrator's state is untouched, the activation goes to the
    one-minute sleep instead of the five-minute one, and when that timer
    fires with the running flag still set a new cycle begins ([cycleCount]
    one more) and the activation is still alive.  While the running flag is
    set, no input ends a live activation except a rejection with [null] or
    [undefined] delivered to it, and only [stop()] clears the flag. *)
Theorem caught_error_backs_off_and_loop_continues
    (m : Machine) (i : nat) (k : Await) (error : JS.thrown) :
  loops m !! i = Some k -> in_body k = true -> JS.reads_message error = true ->
  (exists m1,
     turn i (Throws error) m = Some m1 /\
     this m1 = this m /\
     loops m1 = <[i := AwaitSleep 60000]> (loops m) /\
     calls m1 = (calls m ++ [CallSleep 60000])%list /\
     (isRunning (this m) = true ->
      exists m2 k2,
        turn i TimerFired m1 = Some m2 /\
        cycleCount (stats (this m2)) = (cycleCount (stats (this m)) + 1)%N /\
        loops m2 !! i = Some k2 /\ is_active k2 = true)) /\
  (forall m0 inp m0' j kj kj',
     step inp m0 = Some m0' -> isRunning (this m0) = true ->
     loops m0 !! j = Some kj -> is_active kj = true ->
     loops m0' !! j = Some kj' ->
     is_active kj' = true \/
     exists rejected, inp = Turn j (Throws rejected) /\ JS.reads_message rejected = false) /\
  (forall m0 inp m0',
     step inp m0 = Some m0' -> isRunning (this m0) = true ->
     isRunning (this m0') = false -> inp = Stop).
Proof.
  intros Hl Hb Hmsg. split; [|split].
  - assert (Hlt : i < length (loops m)) by (eapply lookup_lt_Some; exact Hl).
    exists (mkMachine (this m) (<[i := AwaitSleep 60000]> (loops m))
                      (calls m ++ [CallSleep 60000])%list).
    split.
    { unfold turn. rewrite Hl.
      destruct k; try discriminate; simpl; unfold catch; rewrite Hmsg; reflexivity. }
    repeat split. intros Hrun.
    unfold turn. simpl. rewrite list_lookup_insert_eq by exact Hlt. simpl.
    pose proof (runCycle_this (this m)) as Ht. rewrite Hrun in Ht.
    assert (Ha : is_active (runCycle (this m)).2 = true)
      by (unfold runCycle; rewrite Hrun; apply next_agent_active).
    destruct (runCycle (this m)) as [[o cs] k2]. simpl in *. subst o.
    eexists _, k2. split; [reflexivity|]. simpl. split; [reflexivity|].
    split; [|exact Ha]. apply list_lookup_insert_eq. rewrite length_insert. exact Hlt.
  - intros m0 inp m0' j kj kj' Hs Hrun Hj Hact Hj'.
    destruct inp as [| |i0 ev]; simpl in Hs.
    + injection Hs as <-. rewrite start_while_running in Hj' by exact Hrun.
      left. congruence.
    + injection Hs as <-. simpl in Hj'. left. congruence.
    + unfold turn in Hs. destruct (loops m0 !! i0) as [k0|] eqn:E0; [|discriminate].
      destruct (resume (this m0) k0 ev) as [[[o cs] k']|] eqn:E; [|discriminate].
      injection Hs as <-. simpl in Hj'.
      destruct (decide (i0 = j)) as [->|Hne].
      * rewrite list_lookup_insert_eq in Hj' by (eapply lookup_lt_Some; exact Hj).
        injection Hj' as <-.
        destruct (resume_active _ _ _ _ _ _ Hrun E) as [Ha|(rejected & -> & Hr)];
          [left; exact Ha|].
        right. exists rejected. split; [reflexivity | exact Hr].
      * rewrite list_lookup_insert_ne in Hj' by exact Hne. left. congruence.
  - intros m0 inp m0' Hs Hrun Hoff. destruct inp as [| |i0 ev]; simpl in Hs.
    + injection Hs as <-. rewrite start_while_running in Hoff by exact Hrun. congruence.
    + reflexivity.
    + unfold turn in Hs. destruct (loops m0 !! i0) as [k0|]; [|discriminate].
      destruct (resume (this m0) k0 ev) as [[[o cs] k']|] eqn:E; [|discriminate].
      injection Hs as <-. simpl in Hoff.
      rewrite (resume_isRunning _ _ _ _ _ _ E) in Hoff. congruence.
Qed.

Lemma caught_error_backs_off_and_loop_continues_witness :
  exists m1,
    turn 0 (Throws (JS.ThrownError (JS.mkError "discovery failed"))) (start boot) = Some m1 /\
    loops m1 = [AwaitSleep 60000] /\
    exists m2 k2,
      turn 0 TimerFired m1 = Some m2 /\
      cycleCount (stats (this m2)) = 2%N /\
      loops m2 !! 0 = Some k2 /\ is_active k2 = true.
Proof.
  destruct (caught_error_backs_off_and_loop_continues (start boot) 0
              (AwaitFindTasks 0 [1; 2]) (JS.ThrownError (JS.mkError "discovery failed"))
              eq_refl eq_refl eq_refl)
    as ((m1 & Ht & _ & Hloops & _ & Hnext) & _).
  exists m1. split; [exact Ht|]. split; [exact Hloops|]. exact (Hnext eq_refl).
Defined.

(** C8, on the failing input [start(); stop(); start()]: the second
    [start()] finds the flag cleared and launches a second activation of
    [runCycle] while the first is still suspended in [findTasks]; both are
    alive, both have counted a cycle, and both go on when their timers fire. *)
Theorem stop_then_start_runs_two_loops :
  exists m, run [Start; Stop; Start] boot = Some m /\
    loops m = [AwaitFindTasks 0 [1; 2]; AwaitFindTasks 0 [1; 2]] /\
    active_loops m = 2 /\
    isRunning (this m) = true /\
    cycleCount (stats (this m)) = 2%N /\
    exists m', run [Turn 0 (FindTasksDone 1700000001000);
                    Turn 1 (FindTasksDone 1700000001500)] m = Some m' /\
      loops m'
      = [AwaitExecuteTask 0 (sample_task 1700000001000 ["smart-contract"; "web3"]) [] [1; 2];
         AwaitExecuteTask 0 (sample_task 1700000001500 ["smart-contract"; "web3"]) [] [1; 2]] /\
      active_loops m' = 2.
Proof.
  eexists. split; [vm_compute; reflexivity|].
  repeat split; try (vm_compute; reflexivity).
  eexists. split; [vm_compute; reflexivity|].
  split; vm_compute; reflexivity.
Qed.

(** ** Timers always find their activation

    In a reachable state every live activation accepts the event it waits
    for: the statements above about turns are not about an empty set. *)

Lemma active_from_bound (i : nat) (l : list AIAgent.t) :
  Forall (fun j => j < i + length l) (active_from i l).
Proof.
  revert i. induction l as [|a l IH]; intros i; simpl; [constructor|].
  specialize (IH (S i)).
  assert (H : Forall (fun j => j < i + S (length l)) (active_from (S i) l)).
  { eapply Forall_impl; [exact IH|]. simpl. intros; lia. }
  destruct (AIAgent.isActive a); [constructor; [lia | exact H] | exact H].
Qed.

Lemma next_agent_in_pool (n : nat) (o : t) (rest : list nat) :
  Forall (fun j => j < n) rest -> await_in_pool n (next_agent o rest).2.
Proof.
  intros H. destruct rest as [|a rest]; simpl; [exact I|].
  apply Forall_cons in H. exact H.
Qed.

Lemma next_task_in_pool (n : nat) (o : t) (a : nat) (tasks : list Task) (rest : list nat) :
  a < n -> Forall (fun j => j < n) rest -> await_in_pool n (next_task o a tasks rest).2.
Proof.
  intros Ha H. destruct tasks; [apply next_agent_in_pool; exact H | split; assumption].
Qed.

Lemma runCycle_in_pool (o : t) : await_in_pool (length (agents o)) (runCycle o).2.
Proof.
  unfold runCycle. destruct (isRunning o); [|exact I].
  apply next_agent_in_pool. apply (active_from_bound 0).
Qed.

Lemma runCycle_agents (o : t) : agents (runCycle o).1.1 = agents o.
Proof. rewrite runCycle_this. destruct (isRunning o); reflexivity. Qed.

Lemma resume_pool_size (o o' : t) (k k' : Await) (ev : Event) (cs : list Call) :
  resume o k ev = Some (o', cs, k') -> length (agents o') = length (agents o).
Proof.
  intros H. apply resume_this in H. destruct k, ev; subst; try reflexivity.
  - destruct H as (ag & _ & ->). unfold record_result.
    destruct (AIAgent.success _); simpl; apply length_insert.
  - rewrite runCycle_agents. reflexivity.
Qed.

Lemma resume_in_pool (o o' : t) (k k' : Await) (ev : Event) (cs : list Call) :
  resume o k ev = Some (o', cs, k') ->
  await_in_pool (length (agents o)) k -> await_in_pool (length (agents o)) k'.
Proof.
  intros H Hk. pose proof (resume_next _ _ _ _ _ _ H) as Hn.
  destruct k, ev; simpl in H; try discriminate; clear H.
  - destruct Hn as (ag & _ & ->). apply next_task_in_pool; apply Hk.
  - subst. unfold catch. destruct (JS.reads_message error); exact I.
  - destruct Hn as (o1 & ->). apply next_task_in_pool; apply Hk.
  - subst. unfold catch. destruct (JS.reads_message error); exact I.
  - subst. apply runCycle_in_pool.
Qed.

Lemma loops_in_pool_reachable (m : Machine) : reachable m -> loops_in_pool m.
Proof.
  revert m. apply reachable_ind'.
  - constructor.
  - intros inp m m' IH Hs. unfold loops_in_pool in *.
    destruct inp as [| |i ev]; simpl in Hs.
    + injection Hs as <-. unfold start.
      destruct (isRunning (this m)) eqn:E; [exact IH|].
      pose proof (runCycle_in_pool (set_isRunning true (this m))) as Hk.
      pose proof (runCycle_agents (set_isRunning true (this m))) as Ha.
      destruct (runCycle (set_isRunning true (this m))) as [[o cs] k]. simpl in *.
      rewrite Ha. apply Forall_app. split; [exact IH | constructor; [exact Hk | constructor]].
    + injection Hs as <-. exact IH.
    + unfold turn in Hs. destruct (loops m !! i) as [k|] eqn:Ek; [|discriminate].
      destruct (resume (this m) k ev) as [[[o cs] k']|] eqn:E; [|discriminate].
      injection Hs as <-. simpl.
      rewrite (resume_pool_size _ _ _ _ _ _ E).
      apply Forall_insert; [exact IH|].
      eapply resume_in_pool; [exact E|].
      exact (proj1 (Forall_lookup _ _) IH _ _ Ek).
Qed.

Lemma live_activation_accepts_its_event (m : Machine) (i : nat) (k : Await) :
  reachable m -> loops m !! i = Some k -> is_active k = true ->
  exists m', turn i (awaited k) m = Some m'.
Proof.
  intros Hr Hl Ha.
  pose proof (proj1 (Forall_lookup _ _) (loops_in_pool_reachable m Hr) _ _ Hl) as Hk.
  unfold turn. rewrite Hl.
  destruct k as [a rest|a task tasks rest|ms| |]; simpl in *; try discriminate.
  - destruct (lookup_lt_is_Some_2 (agents (this m)) a (proj1 Hk)) as [ag ->].
    eexists. reflexivity.
  - destruct (lookup_lt_is_Some_2 (agents (this m)) a (proj1 Hk)) as [ag ->].
    destruct (AIAgent.executeTask ag task 0.5) as [ag' res].
    destruct (next_task _ a tasks rest) as [[o cs] k']. eexists. reflexivity.
  - destruct (runCycle (this m)) as [[o cs] k']. eexists. reflexivity.
Qed.

(** * Further properties of the code *)

(** ** One turn, case by case *)

Lemma resume_cases (o o' : t) (k k' : Await) (ev : Event) (cs : list Call) :
  resume o k ev = Some (o', cs, k') ->
  (exists a rest ag now,
     k = AwaitFindTasks a rest /\ ev = FindTasksDone now /\ agents o !! a = Some ag /\
     o' = o /\
     cs = [CallExecuteTask a (sample_task now (AIAgent.capabilities ag))] /\
     k' = AwaitExecuteTask a (sample_task now (AIAgent.capabilities ag)) [] rest) \/
  (exists a task tasks rest ag r,
     k = AwaitExecuteTask a task tasks rest /\ ev = ExecuteTaskDone r /\
     agents o !! a = Some ag /\
     o' = record_result (AIAgent.executeTask ag task r).2
            (set_agents (<[a := (AIAgent.executeTask ag task r).1]> (agents o)) o) /\
     cs = (next_task o' a tasks rest).1.2 /\ k' = (next_task o' a tasks rest).2) \/
  (exists e,
     in_body k = true /\ ev = Throws e /\ o' = o /\
     cs = (catch o e).1.2 /\ k' = (catch o e).2) \/
  (exists ms, k = AwaitSleep ms /\ ev = TimerFired /\ (o', cs, k') = runCycle o).
Proof.
  intros H. destruct k as [a rest|a task tasks rest|ms| |], ev as [now|r| |e];
    simpl in H; try discriminate.
  - left. destruct (agents o !! a) as [ag|] eqn:E; [|discriminate].
    injection H as <- <- <-. exists a, rest, ag, now. repeat split. exact E.
  - right; right; left. exists e. injection H as H.
    pose proof (catch_this o e) as Hc. rewrite H in *. simpl in Hc. subst o'.
    repeat split.
  - right; left. destruct (agents o !! a) as [ag|] eqn:E; [|discriminate].
    exists a, task, tasks, rest, ag, r.
    destruct (AIAgent.executeTask ag task r) as [ag' res]. simpl.
    injection H as H.
    assert (Ho : o' = record_result res (set_agents (<[a:=ag']> (agents o)) o)).
    { apply (f_equal (fun p => p.1.1)) in H. rewrite next_task_this in H.
      symmetry. exact H. }
    rewrite <- Ho in H. repeat split; try assumption; rewrite H; reflexivity.
  - right; right; left. exists e. injection H as H.
    pose proof (catch_this o e) as Hc. rewrite H in *. simpl in Hc. subst o'.
    repeat split.
  - right; right; right. exists ms. injection H as H. repeat split. symmetry. exact H.
Qed.

Lemma turn_cases (i : nat) (ev : Event) (m m' : Machine) :
  turn i ev m = Some m' ->
  exists k k' cs,
    loops m !! i = Some k /\ resume (this m) k ev = Some (this m', cs, k') /\
    loops m' = <[i := k']> (loops m) /\ calls m' = (calls m ++ cs)%list.
Proof.
  unfold turn. intros H. destruct (loops m !! i) as [k|] eqn:Ek; [|discriminate].
  destruct (resume (this m) k ev) as [[[o cs] k']|] eqn:E; [|discriminate].
  injection H as <-. exists k, k', cs. repeat split. exact E.
Qed.

Lemma start_cases (m : Machine) :
  (isRunning (this m) = true /\ start m = m) \/
  (isRunning (this m) = false /\
   exists cs k, runCycle (set_isRunning true (this m)) = (this (start m), cs, k) /\
     loops (start m) = (loops m ++ [k])%list /\ calls (start m) = (calls m ++ cs)%list).
Proof.
  unfold start. destruct (isRunning (this m)) eqn:E; [left; split; reflexivity|].
  right. split; [reflexivity|].
  destruct (runCycle (set_isRunning true (this m))) as [[o cs] k].
  exists cs, k. repeat split.
Qed.

Lemma total_insert (f : Await -> nat) (l : list Await) (i : nat) (k k' : Await) :
  l !! i = Some k -> total f (<[i := k']> l) + f k = total f l + f k'.
Proof.
  revert i. induction l as [|x l IH]; intros [|i] H; simpl in *; try discriminate.
  - injection H as ->. lia.
  - specialize (IH i H). lia.
Qed.

Lemma total_app (f : Await -> nat) (l l' : list Await) :
  total f (l ++ l') = total f l + total f l'.
Proof. induction l as [|x l IH]; simpl; [reflexivity | rewrite IH; lia]. Qed.

Lemma count_calls_app (p : Call -> bool) (cs cs' : list Call) :
  count_calls p (cs ++ cs') = count_calls p cs + count_calls p cs'.
Proof. induction cs as [|c cs IH]; simpl; [reflexivity | rewrite IH; lia]. Qed.

(** ** The pool is fixed *)

Lemma executeTask_identity (ag : AIAgent.t) (task : Task) (r : float) :
  identity (AIAgent.executeTask ag task r).1 = identity ag.
Proof. unfold AIAgent.executeTask. destruct (0.25 <? r)%float; reflexivity. Qed.

Lemma record_result_agents (res : AIAgent.Result) (o : t) :
  agents (record_result res o) = agents o.
Proof. unfold record_result. destruct (AIAgent.success res); reflexivity. Qed.

Lemma resume_identity (o o' : t) (k k' : Await) (ev : Event) (cs : list Call) :
  resume o k ev = Some (o', cs, k') ->
  map identity (agents o') = map identity (agents o).
Proof.
  intros H. apply resume_this in H. destruct k, ev; subst; try reflexivity.
  - destruct H as (ag & Hl & ->). rewrite record_result_agents. simpl.
    rewrite list_fmap_insert, executeTask_identity.
    apply list_insert_id. rewrite list_lookup_fmap, Hl. reflexivity.
  - rewrite runCycle_agents. reflexivity.
Qed.

Lemma step_identity (inp : Input) (m m' : Machine) :
  step inp m = Some m' ->
  map identity (agents (this m')) = map identity (agents (this m)).
Proof.
  destruct inp as [| |i ev]; simpl.
  - intros [= <-]. destruct (start_cases m) as [[_ ->]|(_ & cs & k & Hr & _)]; [reflexivity|].
    apply (f_equal (fun p => agents p.1.1)) in Hr. rewrite runCycle_agents in Hr.
    simpl in Hr. rewrite <- Hr. reflexivity.
  - intros [= <-]. reflexivity.
  - intros H. destruct (turn_cases i ev m m' H) as (k & k' & cs & _ & Hr & _).
    eapply resume_identity. exact Hr.
Qed.

Lemma pool_identity_reachable (m : Machine) :
  reachable m -> map identity (agents (this m)) = pool_identity.
Proof.
  revert m. apply reachable_ind'; [reflexivity|].
  intros inp m m' IH Hs. rewrite (step_identity inp m m' Hs). exact IH.
Qed.

Lemma pool_identity_active (o : t) :
  map identity (agents o) = pool_identity ->
  length (agents o) = 3 /\ active_agents o = [0; 1; 2] /\
  length (filter (fun a => AIAgent.isActive a = true) (agents o)) = 3.
Proof.
  unfold active_agents. destruct (agents o) as [|a0 [|a1 [|a2 [|a3 l]]]]; try discriminate.
  intros H. unfold pool_identity, identity in H. simpl in H.
  pose proof (f_equal (fun l : list (string * list string * bool * float) =>
                         match l with p :: _ => p.1.2 | _ => true end) H) as H0.
  pose proof (f_equal (fun l : list (string * list string * bool * float) =>
                         match l with _ :: p :: _ => p.1.2 | _ => true end) H) as H1.
  pose proof (f_equal (fun l : list (string * list string * bool * float) =>
                         match l with _ :: _ :: p :: _ => p.1.2 | _ => true end) H) as H2.
  simpl in H0, H1, H2.
  split; [reflexivity|]. split.
  - simpl. rewrite H0, H1, H2. reflexivity.
  - rewrite !filter_cons_True by assumption. reflexivity.
Qed.

(** X1.  Nothing the loop does changes who the workers are: at every
    observation point the pool is the three workers of the constructor, with
    their names, capabilities and success rate, all of them active, and
    [getStats] reports three active agents. *)
Theorem pool_never_changes (m : Machine) (lastSync : string) :
  reachable m ->
  map identity (agents (this m))
  = [ ("GitcoinAgent", ["smart-contract"; "web3"], true, 0.75%float);
      ("UpworkAgent", ["frontend"; "react"], true, 0.75%float);
      ("BountyAgent", ["testing"; "security"], true, 0.75%float) ] /\
  snap_agentsActive (getStats (this m) lastSync) = 3 /\
  map AIAgent.snap_name (snap_agents (getStats (this m) lastSync))
  = ["GitcoinAgent"; "UpworkAgent"; "BountyAgent"].
Proof.
  intros Hr. pose proof (pool_identity_reachable m Hr) as Hp.
  split; [exact Hp|]. split.
  - simpl. apply pool_identity_active. exact Hp.
  - simpl. rewrite map_map.
    change (map (fun x => AIAgent.snap_name (AIAgent.getStats x)) (agents (this m)))
      with (map (fun x => (identity x).1.1.1) (agents (this m))).
    rewrite <- (map_map identity (fun p => p.1.1.1)), Hp. reflexivity.
Qed.

Lemma pool_never_changes_witness :
  snap_agentsActive (getStats (this after_two_successful_cycles) "12:00:00") = 3.
Proof.
  refine (proj1 (proj2 (pool_never_changes after_two_successful_cycles "12:00:00" _))).
  exists two_successful_cycles. vm_compute. reflexivity.
Defined.

(** ** Workers are visited in pool order, one task each *)

Lemma next_agent_visiting (o : t) (a : nat) :
  a <= 3 -> visiting (next_agent o (seq a (3 - a))).2.
Proof.
  intros H. destruct a as [|[|[|[|a]]]]; simpl; try lia; repeat split; lia.
Qed.

Lemma runCycle_visiting (o : t) :
  map identity (agents o) = pool_identity -> visiting (runCycle o).2.
Proof.
  intros Hp. unfold runCycle. destruct (isRunning o); [|exact I].
  replace (active_agents _) with (seq 0 (3 - 0))
    by (symmetry; apply (pool_identity_active o Hp)).
  apply next_agent_visiting. lia.
Qed.

Lemma resume_visiting (o o' : t) (k k' : Await) (ev : Event) (cs : list Call) :
  map identity (agents o) = pool_identity ->
  resume o k ev = Some (o', cs, k') -> visiting k -> visiting k'.
Proof.
  intros Hp H Hk.
  destruct (resume_cases _ _ _ _ _ _ H)
    as [(a & rest & ag & now & -> & -> & _ & _ & _ & ->)
       |[(a & task & tasks & rest & ag & r & -> & -> & _ & _ & _ & ->)
        |[(e & _ & _ & _ & _ & ->)
         |(ms & -> & -> & Hr)]]].
  - destruct Hk as [Ha Hrest]. repeat split; assumption.
  - destruct Hk as (Ha & -> & ->). simpl.
    replace (2 - a) with (3 - S a) by lia. apply next_agent_visiting. lia.
  - destruct (catch_cases o e) as [-> | ->]; exact I.
  - apply (f_equal snd) in Hr. simpl in Hr. rewrite Hr. apply runCycle_visiting. exact Hp.
Qed.

Lemma visiting_reachable (m : Machine) : reachable m -> Forall visiting (loops m).
Proof.
  intros Hr.
  cut (map identity (agents (this m)) = pool_identity /\ Forall visiting (loops m));
    [intros [_ H]; exact H|].
  revert m Hr. apply reachable_ind'.
  - split; [reflexivity | constructor].
  - intros inp m m' [Hp Hv] Hs.
    split; [rewrite (step_identity inp m m' Hs); exact Hp|].
    destruct inp as [| |i ev]; simpl in Hs.
    + injection Hs as <-.
      destruct (start_cases m) as [[_ ->]|(_ & cs & k & Hr & -> & _)]; [exact Hv|].
      apply Forall_app. split; [exact Hv|]. constructor; [|constructor].
      apply (f_equal snd) in Hr. simpl in Hr. rewrite <- Hr.
      apply runCycle_visiting. exact Hp.
    + injection Hs as <-. exact Hv.
    + destruct (turn_cases i ev m m' Hs) as (k & k' & cs & Hl & Hr & -> & _).
      apply Forall_insert; [exact Hv|].
      eapply resume_visiting; [exact Hp | exact Hr |].
      exact (proj1 (Forall_lookup _ _) Hv _ _ Hl).
Qed.

(** X2.  When a worker's discovery completes, the loop executes exactly one
    task, with that same worker: the task of [findTasks], whose reward is
    0.01 and whose keywords are the worker's capabilities.  The cap of two
    tasks per discovery never comes into play. *)
Theorem discovery_leads_to_one_execution
    (m : Machine) (i a : nat) (rest : list nat) (now : Z) :
  reachable m -> loops m !! i = Some (AwaitFindTasks a rest) ->
  exists ag,
    agents (this m) !! a = Some ag /\
    turn i (FindTasksDone now) m
    = Some (mkMachine (this m)
              (<[i := AwaitExecuteTask a (mkTask now "Sample Task" 0.01
                                            (AIAgent.capabilities ag)) [] rest]> (loops m))
              (calls m ++ [CallExecuteTask a (mkTask now "Sample Task" 0.01
                                                (AIAgent.capabilities ag))])%list).
Proof.
  intros Hr Hl.
  pose proof (proj1 (Forall_lookup _ _) (loops_in_pool_reachable m Hr) _ _ Hl) as [Ha _].
  destruct (lookup_lt_is_Some_2 (agents (this m)) a Ha) as [ag Hag].
  exists ag. split; [exact Hag|]. unfold turn. rewrite Hl. simpl. rewrite Hag. reflexivity.
Qed.

Lemma discovery_leads_to_one_execution_witness :
  exists ag,
    agents (this (start boot)) !! 0 = Some ag /\
    turn 0 (FindTasksDone 1700000001000) (start boot)
    = Some (mkMachine (this (start boot))
              (<[0 := AwaitExecuteTask 0 (mkTask 1700000001000 "Sample Task" 0.01
                                            (AIAgent.capabilities ag)) [] [1; 2]]>
                 (loops (start boot)))
              (calls (start boot)
               ++ [CallExecuteTask 0 (mkTask 1700000001000 "Sample Task" 0.01
                                        (AIAgent.capabilities ag))])%list).
Proof.
  apply (discovery_leads_to_one_execution (start boot) 0 0 [1; 2] 1700000001000).
  - exists [Start]. reflexivity.
  - reflexivity.
Defined.

(** X3.  When a worker's execution completes, whatever its outcome, the loop
    calls [findTasks] of the next worker of the pool, and after the third
    worker it sleeps five minutes. *)
Theorem execution_leads_to_next_worker
    (m m' : Machine) (i a : nat) (task : Task) (tasks : list Task) (rest : list nat)
    (random : float) :
  reachable m -> loops m !! i = Some (AwaitExecuteTask a task tasks rest) ->
  turn i (ExecuteTaskDone random) m = Some m' ->
  a < 3 /\
  (a < 2 ->
     calls m' = (calls m ++ [CallFindTasks (S a)])%list /\
     loops m' = <[i := AwaitFindTasks (S a) (seq (S (S a)) (1 - a))]> (loops m)) /\
  (a = 2 ->
     calls m' = (calls m ++ [CallSleep 300000])%list /\
     loops m' = <[i := AwaitSleep 300000]> (loops m)).
Proof.
  intros Hr Hl Ht.
  pose proof (proj1 (Forall_lookup _ _) (visiting_reachable m Hr) _ _ Hl) as (Ha & -> & ->).
  destruct (turn_cases _ _ _ _ Ht) as (k & k' & cs & Hl' & Hres & -> & ->).
  rewrite Hl in Hl'. injection Hl' as <-.
  destruct (resume_cases _ _ _ _ _ _ Hres)
    as [(? & ? & ? & ? & ? & [=] & _)
       |[(a' & task' & tasks' & rest' & ag & r & [= <- <- <- <-] & _ & _ & _ & -> & ->)
        |[(e & _ & [=] & _)
         |(ms & [=] & _)]]].
  split; [exact Ha|]. split.
  - intros Hlt. destruct a as [|[|a]]; [| |lia]; simpl; split; reflexivity.
  - intros ->. simpl. split; reflexivity.
Qed.

Lemma execution_leads_to_next_worker_witness :
  exists m',
    turn 0 (ExecuteTaskDone 0.1) first_execution_in_flight = Some m' /\
    calls m' = (calls first_execution_in_flight ++ [CallFindTasks 1])%list.
Proof.
  eexists. split; [vm_compute; reflexivity|].
  match goal with
  | |- calls ?m' = _ =>
      refine (proj1 (proj1 (proj2 (execution_leads_to_next_worker
                first_execution_in_flight m' 0 0
                (sample_task 1700000001000 ["smart-contract"; "web3"]) [] [1; 2] 0.1
                _ eq_refl eq_refl)) _))
  end.
  - exists [Start; Turn 0 (FindTasksDone 1700000001000)]. vm_compute. reflexivity.
  - lia.
Defined.

(** ** Counting cycles, executions and discoveries *)

Lemma next_agent_sleep_or_body (o : t) (rest : list nat) :
  count_calls is_sleep (next_agent o rest).1.2 + one_if (in_body (next_agent o rest).2) = 1.
Proof. destruct rest; reflexivity. Qed.

Lemma next_task_sleep_or_body (o : t) (a : nat) (tasks : list Task) (rest : list nat) :
  count_calls is_sleep (next_task o a tasks rest).1.2
  + one_if (in_body (next_task o a tasks rest).2) = 1.
Proof. destruct tasks; [apply next_agent_sleep_or_body | reflexivity]. Qed.

Lemma runCycle_cycleCount (o : t) :
  cycleCount (stats (runCycle o).1.1)
  = (cycleCount (stats o) + N.of_nat (one_if (isRunning o)))%N /\
  count_calls is_sleep (runCycle o).1.2 + one_if (in_body (runCycle o).2)
  = one_if (isRunning o).
Proof.
  split.
  - rewrite runCycle_this. destruct (isRunning o); simpl; lia.
  - unfold runCycle. destruct (isRunning o); [apply next_agent_sleep_or_body | reflexivity].
Qed.

Lemma record_result_stats (res : AIAgent.Result) (o : t) :
  tasksCompleted (stats (record_result res o))
  = (tasksCompleted (stats o) + N.of_nat (one_if (AIAgent.success res)))%N /\
  cycleCount (stats (record_result res o)) = cycleCount (stats o).
Proof. unfold record_result. destruct (AIAgent.success res); simpl; split; lia. Qed.

Lemma next_agent_not_aborted (o : t) (rest : list nat) :
  is_aborted (next_agent o rest).2 = false.
Proof. destruct rest; reflexivity. Qed.

Lemma next_task_not_aborted (o : t) (a : nat) (tasks : list Task) (rest : list nat) :
  is_aborted (next_task o a tasks rest).2 = false.
Proof. destruct tasks; [apply next_agent_not_aborted | reflexivity]. Qed.

Lemma runCycle_not_aborted (o : t) : is_aborted (runCycle o).2 = false.
Proof. unfold runCycle. destruct (isRunning o); [apply next_agent_not_aborted | reflexivity]. Qed.

Lemma total_add (f g : Await -> nat) (l : list Await) :
  total (fun k => f k + g k) l = total f l + total g l.
Proof. induction l as [|x l IH]; simpl; [reflexivity | rewrite IH; lia]. Qed.

(** What one turn does to the cycle count, the sleeps recorded and the
    activation's being inside a cycle body or ended in its [catch]. *)
Lemma resume_cycle_account (o o' : t) (k k' : Await) (ev : Event) (cs : list Call) :
  resume o k ev = Some (o', cs, k') ->
  is_aborted k = false /\
  (N.to_nat (cycleCount (stats o')) + one_if (in_body k)
   = N.to_nat (cycleCount (stats o)) + count_calls is_sleep cs
     + one_if (in_body k') + one_if (is_aborted k')).
Proof.
  intros H.
  destruct (resume_cases _ _ _ _ _ _ H)
    as [(a & rest & ag & now & -> & -> & _ & -> & -> & ->)
       |[(a & task & tasks & rest & ag & r & -> & -> & _ & Ho & -> & ->)
        |[(e & Hb & _ & -> & -> & ->)
         |(ms & -> & -> & Hr)]]].
  - split; [reflexivity|]. simpl. lia.
  - split; [reflexivity|].
    pose proof (next_task_sleep_or_body o' a tasks rest) as Hn.
    rewrite (next_task_not_aborted o' a tasks rest).
    assert (Hc : cycleCount (stats o') = cycleCount (stats o))
      by (rewrite Ho, (proj2 (record_result_stats _ _)); reflexivity).
    rewrite Hc. simpl in *. lia.
  - split; [destruct k; try discriminate; reflexivity|].
    rewrite Hb. destruct (catch_cases o e) as [-> | ->]; simpl; lia.
  - split; [reflexivity|].
    destruct (runCycle_cycleCount o) as [Hc Hn].
    pose proof (runCycle_not_aborted o) as Hna.
    rewrite <- Hr in Hc, Hn, Hna. simpl in *. rewrite Hc, Hna. simpl. lia.
Qed.

Lemma cycle_account_reachable (m : Machine) :
  reachable m ->
  N.to_nat (cycleCount (stats (this m)))
  = count_calls is_sleep (calls m)
    + total (fun k => one_if (in_body k) + one_if (is_aborted k)) (loops m).
Proof.
  revert m. apply reachable_ind'; [reflexivity|].
  intros inp m m' IH Hs. destruct inp as [| |i ev]; simpl in Hs.
  - injection Hs as <-.
    destruct (start_cases m) as [[_ ->]|(_ & cs & k & Hr & -> & ->)]; [exact IH|].
    destruct (runCycle_cycleCount (set_isRunning true (this m))) as [Hc Hn].
    pose proof (runCycle_not_aborted (set_isRunning true (this m))) as Hna.
    rewrite Hr in Hc, Hn, Hna. simpl in Hc, Hn, Hna.
    rewrite Hc, count_calls_app, total_app. simpl. rewrite Hna. simpl. lia.
  - injection Hs as <-. exact IH.
  - destruct (turn_cases i ev m m' Hs) as (k & k' & cs & Hl & Hr & -> & ->).
    destruct (resume_cycle_account _ _ _ _ _ _ Hr) as [Hna Ha].
    pose proof (total_insert (fun k => one_if (in_body k) + one_if (is_aborted k))
                  (loops m) i k k' Hl) as Ht.
    simpl in Ht. rewrite Hna in Ht. simpl in Ht. rewrite count_calls_app. lia.
Qed.

(** X4.  No cycle is skipped or counted twice: at every observation point
    [cycleCount] is the number of sleeps the loop has gone into (five-minute
    and back-off alike) plus the number of activations that are inside a
    cycle body, plus the number of activations that ended in their [catch]
    clause (which takes a worker call rejecting with [null] or [undefined]);
    every other counted cycle ends in exactly one sleep. *)
Theorem cycleCount_counts_cycles (m : Machine) :
  reachable m ->
  cycleCount (stats (this m))
  = N.of_nat (count_calls is_sleep (calls m)
              + total (fun k => one_if (in_body k)) (loops m)
              + total (fun k => one_if (is_aborted k)) (loops m)).
Proof.
  intros Hr. pose proof (cycle_account_reachable m Hr) as H.
  rewrite total_add in H. lia.
Qed.

Lemma cycleCount_counts_cycles_witness :
  cycleCount (stats (this after_two_successful_cycles))
  = N.of_nat (count_calls is_sleep (calls after_two_successful_cycles)
              + total (fun k => one_if (in_body k)) (loops after_two_successful_cycles)
              + total (fun k => one_if (is_aborted k)) (loops after_two_successful_cycles)).
Proof.
  apply (cycleCount_counts_cycles after_two_successful_cycles).
  exists two_successful_cycles. vm_compute. reflexivity.
Defined.

Lemma next_agent_visits (o : t) (a : nat) :
  a <= 3 -> visits_left (next_agent o (seq a (3 - a))).2 = 3 - a.
Proof. intros H. destruct a as [|[|[|[|a]]]]; simpl; lia. Qed.

Lemma executeTask_success_count (ag : AIAgent.t) (task : Task) (r : float) :
  AIAgent.tasksCompleted (AIAgent.stats (AIAgent.executeTask ag task r).1)
  = (AIAgent.tasksCompleted (AIAgent.stats ag)
     + N.of_nat (one_if (AIAgent.success (AIAgent.executeTask ag task r).2)))%N.
Proof. unfold AIAgent.executeTask. destruct (0.25 <? r)%float; simpl; lia. Qed.

Lemma resume_throughput (o o' : t) (k k' : Await) (ev : Event) (cs : list Call) :
  map identity (agents o) = pool_identity -> visiting k ->
  resume o k ev = Some (o', cs, k') ->
  N.to_nat (tasksCompleted (stats o')) + visits_left k' + 3 * N.to_nat (cycleCount (stats o))
  <= N.to_nat (tasksCompleted (stats o)) + visits_left k + 3 * N.to_nat (cycleCount (stats o')).
Proof.
  intros Hp Hk H.
  destruct (resume_cases _ _ _ _ _ _ H)
    as [(a & rest & ag & now & -> & -> & _ & -> & -> & ->)
       |[(a & task & tasks & rest & ag & r & -> & -> & _ & Ho & -> & ->)
        |[(e & Hb & _ & -> & -> & ->)
         |(ms & -> & -> & Hr)]]].
  - simpl. lia.
  - destruct Hk as (Ha & -> & ->).
    destruct (record_result_stats (AIAgent.executeTask ag task r).2
                (set_agents (<[a:=(AIAgent.executeTask ag task r).1]> (agents o)) o))
      as [Ht Hc].
    rewrite <- Ho in Ht, Hc. simpl in Ht, Hc.
    replace (2 - a) with (3 - S a) by lia. simpl next_task.
    rewrite next_agent_visits by lia. rewrite Ht, Hc. simpl.
    destruct (AIAgent.success _); simpl; lia.
  - destruct (catch_cases o e) as [-> | ->]; simpl; lia.
  - assert (Ht : tasksCompleted (stats o') = tasksCompleted (stats o)).
    { apply (f_equal (fun p => p.1.1)) in Hr. simpl in Hr. rewrite Hr.
      apply runCycle_uncredited. }
    destruct (runCycle_cycleCount o) as [Hc _]. rewrite <- Hr in Hc. simpl in Hc.
    apply (f_equal snd) in Hr. simpl in Hr. subst k'. rewrite Ht, Hc.
    unfold runCycle. destruct (isRunning o); simpl; [|lia].
    replace (active_agents _) with (seq 0 (3 - 0))
      by (symmetry; apply (pool_identity_active o Hp)).
    rewrite next_agent_visits; lia.
Qed.

Lemma throughput_reachable (m : Machine) :
  reachable m ->
  N.to_nat (tasksCompleted (stats (this m))) + total visits_left (loops m)
  <= 3 * N.to_nat (cycleCount (stats (this m))).
Proof.
  intros Hr.
  cut (reachable m /\
       N.to_nat (tasksCompleted (stats (this m))) + total visits_left (loops m)
       <= 3 * N.to_nat (cycleCount (stats (this m)))); [intros [_ H]; exact H|].
  revert m Hr. apply reachable_ind'.
  - split; [exists []; reflexivity | simpl; lia].
  - intros inp m m' [Hr IH] Hs.
    split; [eapply reachable_step; eassumption|].
    pose proof (pool_identity_reachable m Hr) as Hp.
    destruct inp as [| |i ev]; simpl in Hs.
    + injection Hs as <-.
      destruct (start_cases m) as [[_ ->]|(_ & cs & k & Hrc & -> & _)]; [exact IH|].
      pose proof (resume_throughput (set_isRunning true (this m)) (this (start m))
                    (AwaitSleep 0) k TimerFired cs Hp I) as Ht.
      simpl in Ht. rewrite Hrc in Ht. specialize (Ht eq_refl).
      rewrite total_app. simpl. lia.
    + injection Hs as <-. exact IH.
    + destruct (turn_cases i ev m m' Hs) as (k & k' & cs & Hl & Hres & -> & _).
      pose proof (proj1 (Forall_lookup _ _) (visiting_reachable m Hr) _ _ Hl) as Hk.
      pose proof (resume_throughput _ _ _ _ _ _ Hp Hk Hres) as Ht.
      pose proof (total_insert visits_left (loops m) i k k' Hl). lia.
Qed.

(** X5.  At most three tasks are completed per cycle: at every observation
    point the aggregate [tasksCompleted] is at most three times
    [cycleCount]. *)
Theorem at_most_three_tasks_per_cycle (m : Machine) :
  reachable m ->
  (tasksCompleted (stats (this m)) <= 3 * cycleCount (stats (this m)))%N.
Proof. intros Hr. pose proof (throughput_reachable m Hr). lia. Qed.

Lemma at_most_three_tasks_per_cycle_witness :
  (tasksCompleted (stats (this after_two_successful_cycles))
   <= 3 * cycleCount (stats (this after_two_successful_cycles)))%N.
Proof.
  apply (at_most_three_tasks_per_cycle after_two_successful_cycles).
  exists two_successful_cycles. vm_compute. reflexivity.
Defined.

Lemma next_agent_calls (o : t) (rest : list nat) :
  count_calls is_execute (next_agent o rest).1.2 = 0 /\
  one_if (awaits_execute (next_agent o rest).2) = 0 /\
  one_if (awaits_find (next_agent o rest).2) = count_calls is_find (next_agent o rest).1.2.
Proof. destruct rest; repeat split. Qed.

Lemma resume_call_account (o o' : t) (k k' : Await) (ev : Event) (cs : list Call) :
  visiting k -> resume o k ev = Some (o', cs, k') ->
  N.to_nat (tasksCompleted (stats o')) + one_if (awaits_execute k')
  <= N.to_nat (tasksCompleted (stats o)) + one_if (awaits_execute k)
     + count_calls is_execute cs /\
  count_calls is_execute cs + one_if (awaits_find k')
  <= one_if (awaits_find k) + count_calls is_find cs.
Proof.
  intros Hk H.
  destruct (resume_cases _ _ _ _ _ _ H)
    as [(a & rest & ag & now & -> & -> & _ & -> & -> & ->)
       |[(a & task & tasks & rest & ag & r & -> & -> & _ & Ho & -> & ->)
        |[(e & Hb & _ & -> & -> & ->)
         |(ms & -> & -> & Hr)]]].
  - simpl. lia.
  - destruct Hk as (Ha & -> & ->).
    destruct (record_result_stats (AIAgent.executeTask ag task r).2
                (set_agents (<[a:=(AIAgent.executeTask ag task r).1]> (agents o)) o))
      as [Ht _].
    rewrite <- Ho in Ht. simpl in Ht. simpl next_task.
    destruct (next_agent_calls o' (seq (S a) (2 - a))) as (H1 & H2 & H3).
    rewrite Ht, H1, H2, H3. simpl. destruct (AIAgent.success _); simpl; lia.
  - destruct (catch_cases o e) as [-> | ->]; simpl; lia.
  - assert (Ht : tasksCompleted (stats o') = tasksCompleted (stats o)).
    { apply (f_equal (fun p => p.1.1)) in Hr. simpl in Hr. rewrite Hr.
      apply runCycle_uncredited. }
    assert (Hcs : cs = (runCycle o).1.2) by (rewrite <- Hr; reflexivity).
    assert (Hk' : k' = (runCycle o).2) by (rewrite <- Hr; reflexivity).
    rewrite Ht, Hcs, Hk'. unfold runCycle. destruct (isRunning o); simpl; [|lia].
    match goal with
    | |- context [next_agent ?x ?y] => destruct (next_agent_calls x y) as (H1 & H2 & H3)
    end.
    rewrite H1, H2, H3. lia.
Qed.

Lemma call_account_reachable (m : Machine) :
  reachable m ->
  N.to_nat (tasksCompleted (stats (this m)))
  + total (fun k => one_if (awaits_execute k)) (loops m)
  <= count_calls is_execute (calls m) /\
  count_calls is_execute (calls m) + total (fun k => one_if (awaits_find k)) (loops m)
  <= count_calls is_find (calls m).
Proof.
  intros Hr.
  cut (reachable m /\
       (N.to_nat (tasksCompleted (stats (this m)))
        + total (fun k => one_if (awaits_execute k)) (loops m)
        <= count_calls is_execute (calls m) /\
        count_calls is_execute (calls m) + total (fun k => one_if (awaits_find k)) (loops m)
        <= count_calls is_find (calls m))); [intros [_ H]; exact H|].
  revert m Hr. apply reachable_ind'.
  - split; [exists []; reflexivity | simpl; lia].
  - intros inp m m' [Hr [IH1 IH2]] Hs.
    split; [eapply reachable_step; eassumption|].
    destruct inp as [| |i ev]; simpl in Hs.
    + injection Hs as <-.
      destruct (start_cases m) as [[_ ->]|(_ & cs & k & Hrc & -> & ->)]; [split; assumption|].
      pose proof (resume_call_account (set_isRunning true (this m)) (this (start m))
                    (AwaitSleep 0) k TimerFired cs I) as Ht.
      simpl in Ht. rewrite Hrc in Ht. destruct (Ht eq_refl) as [H1 H2].
      rewrite !total_app, !count_calls_app. simpl. lia.
    + injection Hs as <-. split; assumption.
    + destruct (turn_cases i ev m m' Hs) as (k & k' & cs & Hl & Hres & -> & ->).
      pose proof (proj1 (Forall_lookup _ _) (visiting_reachable m Hr) _ _ Hl) as Hk.
      destruct (resume_call_account _ _ _ _ _ _ Hk Hres) as [H1 H2].
      pose proof (total_insert (fun k => one_if (awaits_execute k)) (loops m) i k k' Hl).
      pose proof (total_insert (fun k => one_if (awaits_find k)) (loops m) i k k' Hl).
      simpl in *. rewrite !count_calls_app. lia.
Qed.

(** X6.  Every completed task was executed and every executed task was
    discovered: at every observation point the aggregate [tasksCompleted] is
    at most the number of [executeTask] calls the loop has made, which is at
    most the number of its [findTasks] calls. *)
Theorem completed_le_executed_le_discovered (m : Machine) :
  reachable m ->
  N.to_nat (tasksCompleted (stats (this m))) <= count_calls is_execute (calls m) /\
  count_calls is_execute (calls m) <= count_calls is_find (calls m).
Proof. intros Hr. destruct (call_account_reachable m Hr). lia. Qed.

Lemma completed_le_executed_le_discovered_witness :
  N.to_nat (tasksCompleted (stats (this after_two_successful_cycles)))
  <= count_calls is_execute (calls after_two_successful_cycles).
Proof.
  apply (completed_le_executed_le_discovered after_two_successful_cycles).
  exists two_successful_cycles. vm_compute. reflexivity.
Defined.

(** ** Counters only grow *)

Lemma resume_cycleCount_grows (o o' : t) (k k' : Await) (ev : Event) (cs : list Call) :
  resume o k ev = Some (o', cs, k') ->
  (cycleCount (stats o) <= cycleCount (stats o') <= cycleCount (stats o) + 1)%N.
Proof.
  intros H. apply resume_this in H. destruct k, ev; subst; try lia.
  - destruct H as (ag & _ & ->). rewrite (proj2 (record_result_stats _ _)). simpl. lia.
  - rewrite (proj1 (runCycle_cycleCount o)). destruct (isRunning o); simpl; lia.
Qed.

Lemma coupled_workers_grow (o o' : t) :
  (uncredited o o' \/ exists a r, credited a r o o') ->
  (tasksCompleted (stats o) <= tasksCompleted (stats o') <= tasksCompleted (stats o) + 1)%N /\
  forall j ag, agents o !! j = Some ag ->
    exists ag', agents o' !! j = Some ag' /\
      (AIAgent.tasksCompleted (AIAgent.stats ag)
       <= AIAgent.tasksCompleted (AIAgent.stats ag'))%N.
Proof.
  intros [(Ha & Ht & _) | (a & r & ag0 & Hl & Ha & Ht & _)].
  - rewrite Ha, Ht. split; [lia|]. intros j ag Hj. exists ag. split; [exact Hj | lia].
  - rewrite Ha, Ht. split; [lia|]. intros j ag Hj.
    destruct (decide (a = j)) as [->|Hne].
    + rewrite Hl in Hj. injection Hj as <-.
      eexists. split; [apply list_lookup_insert_eq; eapply lookup_lt_Some; exact Hl|].
      simpl. lia.
    + exists ag. rewrite list_lookup_insert_ne by exact Hne. split; [exact Hj | lia].
Qed.

Lemma step_cycleCount_grows (inp : Input) (m m' : Machine) :
  step inp m = Some m' ->
  (cycleCount (stats (this m)) <= cycleCount (stats (this m'))
   <= cycleCount (stats (this m)) + 1)%N.
Proof.
  destruct inp as [| |i ev]; simpl.
  - intros [= <-].
    destruct (start_cases m) as [[_ ->]|(_ & cs & k & Hrc & _)]; [lia|].
    pose proof (proj1 (runCycle_cycleCount (set_isRunning true (this m)))) as Hc.
    rewrite Hrc in Hc. simpl in Hc. rewrite Hc. lia.
  - intros [= <-]. simpl. lia.
  - intros H. destruct (turn_cases i ev m m' H) as (k & k' & cs & _ & Hres & _).
    eapply resume_cycleCount_grows. exact Hres.
Qed.

(** X7.  The counters only grow, and by at most one per turn: over any
    sequence of [start()], [stop()] and timer turns, from any state, the
    aggregate [tasksCompleted], [cycleCount] and every worker's
    [tasksCompleted] end no smaller than they began, the first two no more
    than the number of inputs larger. *)
Theorem counters_never_decrease (inps : list Input) (m m' : Machine) :
  run inps m = Some m' ->
  (tasksCompleted (stats (this m)) <= tasksCompleted (stats (this m'))
   <= tasksCompleted (stats (this m)) + N.of_nat (length inps))%N /\
  (cycleCount (stats (this m)) <= cycleCount (stats (this m'))
   <= cycleCount (stats (this m)) + N.of_nat (length inps))%N /\
  (forall j ag, agents (this m) !! j = Some ag ->
     exists ag', agents (this m') !! j = Some ag' /\
       (AIAgent.tasksCompleted (AIAgent.stats ag)
        <= AIAgent.tasksCompleted (AIAgent.stats ag'))%N).
Proof.
  revert m. induction inps as [|inp inps IH]; intros m H; simpl in H.
  - injection H as <-. repeat split; try lia. intros j ag Hj. exists ag. split; [exact Hj|lia].
  - destruct (step inp m) as [m1|] eqn:E; [|discriminate].
    destruct (IH m1 H) as (H1 & H2 & H3).
    destruct (coupled_workers_grow _ _ (step_coupled inp m m1 E)) as [H4 H5].
    pose proof (step_cycleCount_grows inp m m1 E) as H6.
    change (length (inp :: inps)) with (S (length inps)).
    split; [lia|]. split; [lia|].
    intros j ag Hj. destruct (H5 j ag Hj) as (ag1 & Hj1 & Hle1).
    destruct (H3 j ag1 Hj1) as (ag' & Hj' & Hle'). exists ag'. split; [exact Hj'|lia].
Qed.

Lemma counters_never_decrease_witness :
  (tasksCompleted (stats (this boot))
   <= tasksCompleted (stats (this after_two_successful_cycles))
   <= tasksCompleted (stats (this boot)) + N.of_nat (length two_successful_cycles))%N.
Proof.
  apply (counters_never_decrease two_successful_cycles boot after_two_successful_cycles).
  vm_compute. reflexivity.
Defined.

(** ** How many loops *)

Lemma step_loops_length (inp : Input) (m m' : Machine) :
  step inp m = Some m' ->
  length (loops m') <= length (loops m) + one_if (is_start inp) /\
  (is_stop inp = false ->
   length (loops m) = one_if (isRunning (this m)) ->
   length (loops m') = one_if (isRunning (this m'))).
Proof.
  destruct inp as [| |i ev]; simpl.
  - intros [= <-]. destruct (start_cases m) as [[Hrun ->]|(Hrun & cs & k & Hrc & -> & _)].
    + split; [lia | auto].
    + rewrite length_app. simpl. split; [lia|]. intros _ Hlen.
      pose proof (runCycle_isRunning (set_isRunning true (this m))) as Hi.
      rewrite Hrc in Hi. simpl in Hi. rewrite Hi, Hlen, Hrun. reflexivity.
  - intros [= <-]. simpl. split; [lia | discriminate].
  - intros H. destruct (turn_cases i ev m m' H) as (k & k' & cs & _ & Hres & -> & _).
    rewrite length_insert. split; [lia|]. intros _ Hlen.
    rewrite (resume_isRunning _ _ _ _ _ _ Hres). exact Hlen.
Qed.

Lemma run_loops_length (inps : list Input) (m m' : Machine) :
  run inps m = Some m' ->
  length (loops m') <= length (loops m) + count_inputs is_start inps /\
  (count_inputs is_stop inps = 0 ->
   length (loops m) = one_if (isRunning (this m)) ->
   length (loops m') = one_if (isRunning (this m'))).
Proof.
  revert m. induction inps as [|inp inps IH]; intros m H; simpl in H.
  - injection H as <-. simpl. split; [lia | auto].
  - destruct (step inp m) as [m1|] eqn:E; [|discriminate].
    destruct (IH m1 H) as [H1 H2]. destruct (step_loops_length inp m m1 E) as [H3 H4].
    simpl. split; [lia|]. intros Hz Hlen.
    apply H2; [lia|]. apply H4; [|exact Hlen].
    destruct inp; simpl in *; [reflexivity | lia | reflexivity].
Qed.

(** X8.  The number of [runCycle] activations ever launched is at most the
    number of [start()] calls, so a server that calls [start()] once (as
    [init] does) never has a second loop; and as long as [stop()] is never
    called, however often [start()] is, there is one loop if the flag is set
    and none otherwise. *)
Theorem loops_bounded_by_starts (inps : list Input) (m : Machine) :
  run inps boot = Some m ->
  length (loops m) <= count_inputs is_start inps /\
  (count_inputs is_stop inps = 0 ->
   length (loops m) = one_if (isRunning (this m)) /\ length (loops m) <= 1).
Proof.
  intros H. destruct (run_loops_length inps boot m H) as [H1 H2].
  split; [exact H1|]. intros Hz. specialize (H2 Hz eq_refl).
  split; [exact H2|]. rewrite H2. destruct (isRunning (this m)); simpl; lia.
Qed.

Lemma loops_bounded_by_starts_witness :
  length (loops after_two_successful_cycles) <= count_inputs is_start two_successful_cycles.
Proof.
  refine (proj1 (loops_bounded_by_starts two_successful_cycles
                   after_two_successful_cycles _)).
  vm_compute. reflexivity.
Defined.

(** ** A task's outcome does not steer the loop *)

Lemma next_task_independent (o1 o2 : t) (a : nat) (tasks : list Task) (rest : list nat) :
  (next_task o1 a tasks rest).1.2 = (next_task o2 a tasks rest).1.2 /\
  (next_task o1 a tasks rest).2 = (next_task o2 a tasks rest).2.
Proof. destruct tasks, rest; split; reflexivity. Qed.

(** X9.  Whether a task succeeds or fails changes the counters only: for two
    values of [Math.random()], the turn that completes an execution makes the
    same calls and leaves the activation at the same place, the running flag
    and [cycleCount] as they were.  A failed task is not an error: the
    back-off sleep is not taken. *)
Theorem outcome_does_not_steer_the_loop
    (m m1 : Machine) (i : nat) (r1 r2 : float) :
  turn i (ExecuteTaskDone r1) m = Some m1 ->
  exists m2,
    turn i (ExecuteTaskDone r2) m = Some m2 /\
    loops m2 = loops m1 /\ calls m2 = calls m1 /\
    isRunning (this m2) = isRunning (this m1) /\
    cycleCount (stats (this m2)) = cycleCount (stats (this m1)) /\
    exists cs, calls m1 = (calls m ++ cs)%list /\ ~ In (CallSleep 60000) cs.
Proof.
  intros H. destruct (turn_cases _ _ _ _ H) as (k & k' & cs & Hl & Hres & Hloops & Hcalls).
  destruct (resume_cases _ _ _ _ _ _ Hres)
    as [(? & ? & ? & ? & _ & [=] & _)
       |[(a & task & tasks & rest & ag & r & -> & [= <-] & Hag & Ho & -> & ->)
        |[(e & _ & [=] & _)
         |(ms & _ & [=] & _)]]].
  unfold turn. rewrite Hl. simpl. rewrite Hag.
  destruct (AIAgent.executeTask ag task r2) as [ag2 res2] eqn:E2.
  destruct (next_task (record_result res2 (set_agents (<[a:=ag2]> (agents (this m))) (this m)))
              a tasks rest) as [[o2 cs2] k2] eqn:En.
  pose proof (next_task_independent
                (record_result res2 (set_agents (<[a:=ag2]> (agents (this m))) (this m)))
                (this m1) a tasks rest) as [Hcs Hk].
  rewrite En in Hcs, Hk. simpl in Hcs, Hk. subst cs2 k2.
  assert (Ho2 : o2 = record_result res2 (set_agents (<[a:=ag2]> (agents (this m))) (this m))).
  { apply (f_equal (fun p => p.1.1)) in En. rewrite next_task_this in En.
    symmetry. exact En. }
  eexists. split; [reflexivity|]. simpl.
  rewrite Hloops, Hcalls. repeat split.
  - rewrite Ho2, Ho. unfold record_result.
    destruct (AIAgent.success res2), (AIAgent.success _); reflexivity.
  - rewrite Ho2, Ho. rewrite !(proj2 (record_result_stats _ _)). reflexivity.
  - eexists. split; [reflexivity|].
    destruct tasks, rest; simpl; intros [Hc|[]]; discriminate.
Qed.

Lemma outcome_does_not_steer_the_loop_witness :
  exists m1 m2,
    turn 0 (ExecuteTaskDone 0.5) first_execution_in_flight = Some m1 /\
    turn 0 (ExecuteTaskDone 0.1) first_execution_in_flight = Some m2 /\
    loops m2 = loops m1 /\ calls m2 = calls m1.
Proof.
  eexists.
  match goal with
  | |- exists m2, turn 0 ?e ?m = Some ?m1 /\ _ =>
      assert (H1 : turn 0 e m = Some m1) by (vm_compute; reflexivity);
      destruct (outcome_does_not_steer_the_loop m m1 0 0.5 0.1 H1)
        as (m2 & H2 & Hl & Hc & _)
  end.
  exists m2. repeat split; assumption.
Defined.

(** ** More of the payout guard *)

(** X10.  An authorized payout whose address the ledger does not accept is
    answered 500 "Invalid address" (the error of [sendETH], reported by the
    handler's [catch]); the chain is not contacted, whatever it would have
    answered. *)
Theorem payout_invalid_address
    (StringToNumber : string -> float) (ObjectToString : JS.value -> string)
    (ethers : WalletService.Ethers) (ADMIN_API_KEY : option string)
    (g : Api.Globals) (req : Api.Request) (toAddress amount : JS.value)
    (w : WalletService.t) :
  Api.x_api_key req = ADMIN_API_KEY ->
  JS.get (Api.body req) "toAddress" = Some toAddress -> JS.truthy toAddress = true ->
  JS.get (Api.body req) "amount" = Some amount -> JS.truthy amount = true ->
  Api.walletService g = Some w ->
  WalletService.isAddress ethers toAddress = false ->
  fst (Api.payout StringToNumber ObjectToString ethers ADMIN_API_KEY g req)
  = Api.mkResponse 500 (Api.JFailure "Invalid address") /\
  forall chain,
    Api.payout StringToNumber ObjectToString
      (WalletService.mkEthers (WalletService.isAddress ethers) chain) ADMIN_API_KEY g req
    = Api.payout StringToNumber ObjectToString ethers ADMIN_API_KEY g req.
Proof.
  intros Hk Ht Htt Ha Hat Hw Hno. unfold Api.payout, WalletService.sendETH.
  rewrite Hk, strict_neq_refl, Ht, Ha, Htt, Hat, Hw. simpl. rewrite Hno. simpl.
  split; reflexivity.
Qed.

Lemma payout_invalid_address_witness :
  fst (Api.payout no_StringToNumber no_ObjectToString rejecting_ethers (Some "secret")
         ready_globals
         (Api.mkRequest (Some "secret") (payout_body (JS.str "not-an-address") (JS.number 1))))
  = Api.mkResponse 500 (Api.JFailure "Invalid address").
Proof.
  refine (proj1 (payout_invalid_address no_StringToNumber no_ObjectToString rejecting_ethers
                   (Some "secret") ready_globals _ (JS.str "not-an-address") (JS.number 1)
                   (WalletService.mk "0xWALLET" true) _ _ _ _ _ _ _)); reflexivity.
Defined.

(** X11.  When the chain refuses or loses a transfer, the handler answers
    500 with the ledger's own message, and it has called [sendETH] once: the
    transfer is not retried. *)
Theorem payout_ledger_failure_surfaced
    (StringToNumber : string -> float) (ObjectToString : JS.value -> string)
    (ethers : WalletService.Ethers) (ADMIN_API_KEY : option string)
    (g : Api.Globals) (req : Api.Request) (toAddress amount : JS.value)
    (w : WalletService.t) (e : JS.Error) :
  Api.x_api_key req = ADMIN_API_KEY ->
  JS.get (Api.body req) "toAddress" = Some toAddress -> JS.truthy toAddress = true ->
  JS.get (Api.body req) "amount" = Some amount -> JS.truthy amount = true ->
  Api.walletService g = Some w ->
  WalletService.isAddress ethers toAddress = true ->
  WalletService.sendTransaction ethers toAddress
    (Api.netAmount_of StringToNumber ObjectToString amount) = JS.Rejected e ->
  Api.payout StringToNumber ObjectToString ethers ADMIN_API_KEY g req
  = (Api.mkResponse 500 (Api.JFailure (JS.message e)),
     [Api.mkTransfer toAddress (Api.netAmount_of StringToNumber ObjectToString amount)]).
Proof.
  intros Hk Ht Htt Ha Hat Hw Hok Hrej. unfold Api.payout, WalletService.sendETH.
  rewrite Hk, strict_neq_refl, Ht, Ha, Htt, Hat, Hw. simpl. rewrite Hok, Hrej. reflexivity.
Qed.

Lemma payout_ledger_failure_surfaced_witness :
  Api.payout no_StringToNumber no_ObjectToString failing_ethers (Some "secret") ready_globals
    (Api.mkRequest (Some "secret") (payout_body (JS.str "0xVALID") (JS.number 100)))
  = (Api.mkResponse 500 (Api.JFailure "insufficient funds"),
     [Api.mkTransfer (JS.str "0xVALID") 98]).
Proof.
  assert (H : Api.netAmount_of no_StringToNumber no_ObjectToString (JS.number 100) = 98%float)
    by (vm_compute; reflexivity).
  rewrite <- H.
  apply (payout_ledger_failure_surfaced no_StringToNumber no_ObjectToString failing_ethers
           (Some "secret") ready_globals _ (JS.str "0xVALID") (JS.number 100)
           (WalletService.mk "0xWALLET" true) (JS.mkError "insufficient funds"));
    reflexivity.
Defined.

(** X12.  A payout request makes at most one call to [sendETH], and makes
    one exactly when the key matches, both [toAddress] and [amount] are
    truthy and the wallet has been constructed; the call carries the
    request's address and the amount less the 2% fee. *)
Theorem payout_transfers_at_most_once
    (StringToNumber : string -> float) (ObjectToString : JS.value -> string)
    (ethers : WalletService.Ethers) (ADMIN_API_KEY : option string)
    (g : Api.Globals) (req : Api.Request) :
  let transfers := snd (Api.payout StringToNumber ObjectToString ethers ADMIN_API_KEY g req) in
  (transfers = [] /\
   ~ (Api.x_api_key req = ADMIN_API_KEY /\
      (exists toAddress amount,
         JS.get (Api.body req) "toAddress" = Some toAddress /\ JS.truthy toAddress = true /\
         JS.get (Api.body req) "amount" = Some amount /\ JS.truthy amount = true) /\
      Api.walletService g <> None)) \/
  (exists toAddress amount,
     Api.x_api_key req = ADMIN_API_KEY /\
     JS.get (Api.body req) "toAddress" = Some toAddress /\ JS.truthy toAddress = true /\
     JS.get (Api.body req) "amount" = Some amount /\ JS.truthy amount = true /\
     Api.walletService g <> None /\
     transfers
     = [Api.mkTransfer toAddress (Api.netAmount_of StringToNumber ObjectToString amount)]).
Proof.
  cbv zeta. unfold Api.payout.
  destruct (JS.strict_neq (Api.x_api_key req) ADMIN_API_KEY) eqn:Ek.
  { left. split; [reflexivity|]. intros (Hk & _). apply strict_neq_spec in Ek. contradiction. }
  assert (Hk : Api.x_api_key req = ADMIN_API_KEY).
  { destruct (Api.x_api_key req) as [x|], ADMIN_API_KEY as [y|]; simpl in Ek;
      try discriminate; [|reflexivity].
    apply negb_false_iff, String.eqb_eq in Ek. congruence. }
  destruct (JS.get (Api.body req) "toAddress") as [toAddress|] eqn:Et.
  2:{ left. split; [reflexivity|]. intros (_ & (t & a & [=] & _) & _). }
  destruct (JS.get (Api.body req) "amount") as [amount|] eqn:Ea.
  2:{ left. split; [reflexivity|]. intros (_ & (t & a & _ & _ & [=] & _) & _). }
  destruct (JS.truthy toAddress) eqn:Htt.
  2:{ left. split; [reflexivity|]. intros (_ & (t & a & [= <-] & Hx & _) & _). congruence. }
  destruct (JS.truthy amount) eqn:Hat.
  2:{ left. split; [reflexivity|].
      intros (_ & (t & a & _ & _ & [= <-] & Hx) & _). congruence. }
  simpl. destruct (Api.walletService g) as [w|] eqn:Hw.
  2:{ left. split; [reflexivity|]. intros (_ & _ & Hx). contradiction. }
  right. exists toAddress, amount. repeat split; try assumption; try discriminate.
  destruct (WalletService.sendETH _ _ _ _); reflexivity.
Qed.

(** X13.  An authorized payout request without a [toAddress] (or with a
    falsy one) is answered 400 "Missing fields", and [sendETH] is not
    called. *)
Theorem payout_falsy_address_rejected
    (StringToNumber : string -> float) (ObjectToString : JS.value -> string)
    (ethers : WalletService.Ethers) (ADMIN_API_KEY : option string)
    (g : Api.Globals) (req : Api.Request) (toAddress amount : JS.value) :
  Api.x_api_key req = ADMIN_API_KEY ->
  JS.get (Api.body req) "toAddress" = Some toAddress ->
  JS.get (Api.body req) "amount" = Some amount ->
  JS.truthy toAddress = false ->
  Api.payout StringToNumber ObjectToString ethers ADMIN_API_KEY g req
  = (Api.mkResponse 400 (Api.JError "Missing fields"), []).
Proof.
  intros Hk Ht Ha Hf. unfold Api.payout.
  rewrite Hk, strict_neq_refl, Ht, Ha, Hf. reflexivity.
Qed.

Lemma payout_falsy_address_rejected_witness :
  Api.payout no_StringToNumber no_ObjectToString accepting_ethers (Some "secret") ready_globals
    (Api.mkRequest (Some "secret") (JS.object [("amount", JS.number 1)]))
  = (Api.mkResponse 400 (Api.JError "Missing fields"), []).
Proof.
  apply (payout_falsy_address_rejected _ _ _ _ _ _ JS.undefined (JS.number 1));
    reflexivity.
Defined.

(** X14.  When [ADMIN_API_KEY] is not configured, a request that carries no
    [x-api-key] header passes the key test of both privileged routes:
    the emergency stop is carried out, and a well-formed payout reaches
    [sendETH]. *)
Theorem unconfigured_key_admits_keyless_requests
    (StringToNumber : string -> float) (ObjectToString : JS.value -> string)
    (ethers : WalletService.Ethers)
    (w : WalletService.t) (m : Orchestrator.Machine) (req : Api.Request)
    (toAddress amount : JS.value) :
  Api.x_api_key req = None ->
  JS.get (Api.body req) "toAddress" = Some toAddress -> JS.truthy toAddress = true ->
  JS.get (Api.body req) "amount" = Some amount -> JS.truthy amount = true ->
  Api.emergency_stop None (Api.mkGlobals (Some w) (Some m)) req
  = (Api.Responds (Api.mkResponse 200 Api.JStopped),
     Api.mkGlobals (Some w) (Some (Orchestrator.stop m))) /\
  snd (Api.payout StringToNumber ObjectToString ethers None
         (Api.mkGlobals (Some w) (Some m)) req)
  = [Api.mkTransfer toAddress (Api.netAmount_of StringToNumber ObjectToString amount)].
Proof.
  intros Hk Ht Htt Ha Hat. unfold Api.emergency_stop, Api.payout.
  rewrite Hk, Ht, Ha, Htt, Hat. simpl. split; [reflexivity|].
  destruct (WalletService.sendETH _ _ _ _); reflexivity.
Qed.

Lemma unconfigured_key_admits_keyless_requests_witness :
  Api.emergency_stop None ready_globals
    (Api.mkRequest None (payout_body (JS.str "0xVALID") (JS.number 100)))
  = (Api.Responds (Api.mkResponse 200 Api.JStopped),
     Api.mkGlobals (Some (WalletService.mk "0xWALLET" true))
       (Some (Orchestrator.stop Orchestrator.boot))).
Proof.
  refine (proj1 (unconfigured_key_admits_keyless_requests no_StringToNumber no_ObjectToString
                   accepting_ethers (WalletService.mk "0xWALLET" true) Orchestrator.boot
                   (Api.mkRequest None (payout_body (JS.str "0xVALID") (JS.number 100)))
                   (JS.str "0xVALID") (JS.number 100) _ _ _ _ _)); reflexivity.
Defined.

(** ** Emergency stop and the monitoring routes *)

(** X15.  An emergency stop with a wrong key is answered 403 and touches
    nothing; unlike one with the right key, it does not throw when the
    orchestrator has not been constructed yet. *)
Theorem emergency_stop_wrong_key
    (ADMIN_API_KEY : option string) (g : Api.Globals) (req : Api.Request) :
  Api.x_api_key req <> ADMIN_API_KEY ->
  Api.emergency_stop ADMIN_API_KEY g req
  = (Api.Responds (Api.mkResponse 403 (Api.JError "Unauthorized")), g).
Proof.
  intros H. apply strict_neq_spec in H. unfold Api.emergency_stop. rewrite H. reflexivity.
Qed.

Lemma emergency_stop_wrong_key_witness :
  Api.emergency_stop (Some "secret") early_globals
    (Api.mkRequest (Some "guess") (JS.object []))
  = (Api.Responds (Api.mkResponse 403 (Api.JError "Unauthorized")), early_globals).
Proof. apply emergency_stop_wrong_key. simpl. discriminate. Defined.

(** X16.  An emergency stop with the right key, once the orchestrator
    exists, is answered 200 and clears the running flag only: from then on
    the health route reports the orchestrator as not running and the stats
    route reports [isRunning] false with the earnings, the task count and
    the agents it reported before; the wallet is untouched, and a second
    emergency stop changes nothing more. *)
Theorem emergency_stop_clears_flag_only
    (ADMIN_API_KEY : option string) (g : Api.Globals) (req : Api.Request)
    (m : Machine) (lastSync timestamp : string) :
  Api.x_api_key req = ADMIN_API_KEY -> Api.orchestrator g = Some m ->
  exists g',
    Api.emergency_stop ADMIN_API_KEY g req
    = (Api.Responds (Api.mkResponse 200 Api.JStopped), g') /\
    Api.walletService g' = Api.walletService g /\
    Startup.services_orchestrator (Startup.health g' timestamp) = false /\
    Startup.services_wallet (Startup.health g' timestamp)
    = Startup.services_wallet (Startup.health g timestamp) /\
    Api.stats g' lastSync
    = Api.Responds (Api.mkResponse 200
        (Api.JStats (mkSnapshot false
           (snap_totalEarnings (getStats (this m) lastSync))
           (snap_tasksCompleted (getStats (this m) lastSync))
           (snap_agentsActive (getStats (this m) lastSync))
           lastSync
           (snap_agents (getStats (this m) lastSync))))) /\
    Api.agents g' = Api.agents g /\
    Api.emergency_stop ADMIN_API_KEY g' req
    = (Api.Responds (Api.mkResponse 200 Api.JStopped), g').
Proof.
  intros Hk Ho. exists (Api.mkGlobals (Api.walletService g) (Some (stop m))).
  unfold Api.emergency_stop, Api.stats, Api.agents, Startup.health.
  rewrite Hk, strict_neq_refl, Ho. simpl. repeat split.
Qed.

Lemma emergency_stop_clears_flag_only_witness :
  exists g',
    Api.emergency_stop (Some "secret")
      (Api.mkGlobals (Some (WalletService.mk "0xWALLET" true))
                     (Some after_two_successful_cycles))
      (Api.mkRequest (Some "secret") (JS.object []))
    = (Api.Responds (Api.mkResponse 200 Api.JStopped), g') /\
    Startup.services_orchestrator (Startup.health g' "2026-01-01T00:00:00.000Z") = false.
Proof.
  destruct (emergency_stop_clears_flag_only (Some "secret")
              (Api.mkGlobals (Some (WalletService.mk "0xWALLET" true))
                             (Some after_two_successful_cycles))
              (Api.mkRequest (Some "secret") (JS.object []))
              after_two_successful_cycles "12:00:00" "2026-01-01T00:00:00.000Z"
              eq_refl eq_refl) as (g' & H1 & _ & H2 & _).
  exists g'. split; assumption.
Defined.

(** X17.  The two read-only routes agree: once the orchestrator exists, the
    [tasksCompleted] that [/api/stats] reports is the sum of the
    [tasksCompleted] of the agents that [/api/agents] lists, and the agents
    of the one are the agents of the other. *)
Theorem stats_and_agents_routes_agree
    (g : Api.Globals) (m : Machine) (lastSync : string) :
  Api.orchestrator g = Some m -> reachable m ->
  exists s l,
    Api.stats g lastSync = Api.Responds (Api.mkResponse 200 (Api.JStats s)) /\
    Api.agents g = Api.Responds (Api.mkResponse 200 (Api.JAgents l)) /\
    snap_agents s = l /\
    snap_tasksCompleted s = foldr N.add 0%N (map AIAgent.snap_tasksCompleted l) /\
    snap_agentsActive s = length l.
Proof.
  intros Ho Hr. unfold Api.stats, Api.agents. rewrite Ho.
  eexists _, _. split; [reflexivity|]. split; [reflexivity|]. split; [reflexivity|].
  split.
  - simpl. rewrite snapshot_sum. apply tasks_sum_invariant. exact Hr.
  - simpl. rewrite length_map.
    destruct (pool_identity_active (this m) (pool_identity_reachable m Hr)) as (-> & _ & ->).
    reflexivity.
Qed.

Lemma stats_and_agents_routes_agree_witness :
  exists s l,
    Api.stats (Api.mkGlobals None (Some after_two_successful_cycles)) "12:00:00"
    = Api.Responds (Api.mkResponse 200 (Api.JStats s)) /\
    Api.agents (Api.mkGlobals None (Some after_two_successful_cycles))
    = Api.Responds (Api.mkResponse 200 (Api.JAgents l)) /\
    snap_agents s = l /\
    snap_tasksCompleted s = foldr N.add 0%N (map AIAgent.snap_tasksCompleted l) /\
    snap_agentsActive s = length l.
Proof.
  apply (stats_and_agents_routes_agree
           (Api.mkGlobals None (Some after_two_successful_cycles))
           after_two_successful_cycles "12:00:00" eq_refl).
  exists two_successful_cycles. vm_compute. reflexivity.
Defined.

Lemma stop_idle (m : Machine) : isRunning (this m) = false -> stop m = m.
Proof.
  destruct m as [[ag run st] l c]. simpl. intros ->. reflexivity.
Qed.

(** X18.  An emergency stop that arrives after the orchestrator is
    constructed but before its scheduled [start()] is answered 200 and has no
    effect: the server state is what it was, and when the timer of [init]
    fires the loop starts all the same, with the flag set and an activation
    inside its first cycle. *)
Theorem emergency_stop_before_start_is_lost
    (ADMIN_API_KEY : option string) (g : Api.Globals) (req : Api.Request) (m : Machine) :
  Api.x_api_key req = ADMIN_API_KEY ->
  Api.orchestrator g = Some m -> isRunning (this m) = false ->
  Api.emergency_stop ADMIN_API_KEY g req
  = (Api.Responds (Api.mkResponse 200 Api.JStopped), g) /\
  exists g' m' k,
    Startup.scheduled_start (snd (Api.emergency_stop ADMIN_API_KEY g req)) = Some g' /\
    Api.orchestrator g' = Some m' /\
    isRunning (this m') = true /\
    cycleCount (stats (this m')) = (cycleCount (stats (this m)) + 1)%N /\
    loops m' = (loops m ++ [k])%list /\ is_active k = true.
Proof.
  intros Hk Ho Hidle.
  assert (He : Api.emergency_stop ADMIN_API_KEY g req
               = (Api.Responds (Api.mkResponse 200 Api.JStopped), g)).
  { unfold Api.emergency_stop. rewrite Hk, strict_neq_refl, Ho, (stop_idle m Hidle).
    destruct g as [w o]. simpl in Ho. subst o. reflexivity. }
  split; [exact He|]. rewrite He. simpl. unfold Startup.scheduled_start. rewrite Ho.
  destruct (start_when_idle m Hidle) as (k & Hk' & Hl & Hrun & _ & _ & _ & Hc).
  eexists _, (start m), k. split; [reflexivity|]. repeat split; assumption.
Qed.

Lemma emergency_stop_before_start_is_lost_witness :
  Api.emergency_stop (Some "secret") (Startup.construct_orchestrator early_globals)
    (Api.mkRequest (Some "secret") (JS.object []))
  = (Api.Responds (Api.mkResponse 200 Api.JStopped),
     Startup.construct_orchestrator early_globals).
Proof.
  refine (proj1 (emergency_stop_before_start_is_lost (Some "secret")
                   (Startup.construct_orchestrator early_globals)
                   (Api.mkRequest (Some "secret") (JS.object [])) boot _ _ _));
    reflexivity.
Defined.

(** ** The wallet *)

(** X19.  [initialize] marks a wallet ready exactly when the provider
    reports chain 1 and the balance query succeeds; a provider error, another
    chain or a failed balance query is swallowed and leaves the wallet not
    ready.  The address never changes. *)
Theorem initialize_ready_iff_mainnet
    (w : WalletService.t) (network : JS.settled Z) (balance : JS.settled string) :
  WalletService.isInitialized w = false ->
  (Startup.isReady (Startup.initialize w network balance) = true <->
   network = JS.Resolved 1%Z /\ exists b, balance = JS.Resolved b) /\
  Startup.getAddress (Startup.initialize w network balance) = Startup.getAddress w.
Proof.
  intros Hw. unfold Startup.initialize, Startup.isReady, Startup.getAddress.
  destruct network as [chainId|e]; simpl.
  - destruct (Z.eqb_spec chainId 1) as [->|Hne].
    + destruct balance as [b|e]; simpl.
      * split; [|reflexivity]. split; [intros _; split; [reflexivity | exists b; reflexivity]
                                      | reflexivity].
      * split; [|reflexivity]. rewrite Hw. split; [discriminate|]. intros [_ [b [=]]].
    + split; [|reflexivity]. rewrite Hw. split; [discriminate|].
      intros [[= ->] _]. contradiction.
  - split; [|reflexivity]. rewrite Hw. split; [discriminate | intros [[=] _]].
Qed.

Lemma initialize_ready_iff_mainnet_witness :
  Startup.isReady (Startup.initialize (WalletService.mk "0xWALLET" false)
                     (JS.Resolved 1%Z) (JS.Resolved "1.5")) = true.
Proof.
  apply (proj1 (initialize_ready_iff_mainnet (WalletService.mk "0xWALLET" false)
                  (JS.Resolved 1%Z) (JS.Resolved "1.5") eq_refl)).
  split; [reflexivity | exists "1.5"; reflexivity].
Defined.

(** X20.  A failed initialization disables nothing.  With the wallet
    connected to another chain, the health route reports the wallet as not
    ready, yet the wallet status route still answers 200 with the address and
    the balance, and a payout is answered exactly as it would be with a ready
    wallet: neither route consults [isReady]. *)
Theorem failed_initialization_disables_nothing
    (StringToNumber : string -> float) (ObjectToString : JS.value -> string)
    (ethers : WalletService.Ethers) (ADMIN_API_KEY : option string)
    (w : WalletService.t) (o : option Machine) (chainId : Z) (balance : JS.settled string)
    (req : Api.Request) (b timestamp : string) :
  WalletService.isInitialized w = false -> chainId <> 1%Z ->
  let w' := Startup.initialize w (JS.Resolved chainId) balance in
  Startup.services_wallet (Startup.health (Api.mkGlobals (Some w') o) timestamp) = false /\
  Startup.wallet_status (Api.mkGlobals (Some w') o) (JS.Resolved b)
  = (200%Z, Startup.WalletStatus (WalletService.address w) b "mainnet") /\
  Api.payout StringToNumber ObjectToString ethers ADMIN_API_KEY (Api.mkGlobals (Some w') o) req
  = Api.payout StringToNumber ObjectToString ethers ADMIN_API_KEY
      (Api.mkGlobals (Some (WalletService.mk (WalletService.address w) true)) o) req.
Proof.
  intros Hw Hne. cbv zeta. unfold Startup.initialize.
  destruct (Z.eqb_spec chainId 1) as [->|_]; [contradiction|].
  unfold Startup.health, Startup.wallet_status, Startup.isReady, Startup.getAddress. simpl.
  split; [exact Hw|]. split; reflexivity.
Qed.

Lemma failed_initialization_disables_nothing_witness :
  Startup.services_wallet
    (Startup.health
       (Api.mkGlobals
          (Some (Startup.initialize (WalletService.mk "0xWALLET" false)
                   (JS.Resolved 5%Z) (JS.Resolved "1.5")))
          None) "2026-01-01T00:00:00.000Z") = false.
Proof.
  refine (proj1 (failed_initialization_disables_nothing no_StringToNumber no_ObjectToString
                   accepting_ethers (Some "secret") (WalletService.mk "0xWALLET" false) None
                   5%Z (JS.Resolved "1.5")
                   (Api.mkRequest (Some "secret") (JS.object [])) "1.5"
                   "2026-01-01T00:00:00.000Z" _ _)); [reflexivity | discriminate].
Defined.

(** ** What a stopped loop still does *)

Lemma reachable_turn (i : nat) (ev : Event) (m m' : Machine) :
  reachable m -> turn i ev m = Some m' -> reachable m'.
Proof. intros Hr Ht. exact (reachable_step (Turn i ev) m m' Hr Ht). Qed.

Lemma worker_capabilities_reachable (m : Machine) (a : nat) (ag : AIAgent.t) :
  reachable m -> agents (this m) !! a = Some ag ->
  AIAgent.capabilities ag = worker_capabilities a.
Proof.
  intros Hr Ha. unfold worker_capabilities.
  rewrite <- (pool_identity_reachable m Hr), list_lookup_fmap, Ha. reflexivity.
Qed.

Lemma turn_find (m : Machine) (i a : nat) (rest : list nat) (now : Z) :
  reachable m -> loops m !! i = Some (AwaitFindTasks a rest) ->
  turn i (FindTasksDone now) m
  = Some (mkMachine (this m)
            (<[i := AwaitExecuteTask a (sample_task now (worker_capabilities a)) [] rest]>
               (loops m))
            (calls m ++ [CallExecuteTask a (sample_task now (worker_capabilities a))])%list).
Proof.
  intros Hr Hl.
  pose proof (proj1 (Forall_lookup _ _) (loops_in_pool_reachable m Hr) _ _ Hl) as [Ha _].
  destruct (lookup_lt_is_Some_2 (agents (this m)) a Ha) as [ag Hag].
  unfold turn. rewrite Hl. simpl. rewrite Hag. simpl.
  rewrite (worker_capabilities_reachable m a ag Hr Hag). reflexivity.
Qed.

Lemma record_result_isRunning (res : AIAgent.Result) (o : t) :
  isRunning (record_result res o) = isRunning o.
Proof. unfold record_result. destruct (AIAgent.success res); reflexivity. Qed.

Lemma turn_execute (m : Machine) (i a : nat) (task : Task) (rest : list nat) (r : float) :
  reachable m -> loops m !! i = Some (AwaitExecuteTask a task [] rest) ->
  exists m1,
    turn i (ExecuteTaskDone r) m = Some m1 /\
    calls m1 = (calls m ++ (next_agent (this m) rest).1.2)%list /\
    loops m1 = <[i := (next_agent (this m) rest).2]> (loops m) /\
    isRunning (this m1) = isRunning (this m) /\
    cycleCount (stats (this m1)) = cycleCount (stats (this m)).
Proof.
  intros Hr Hl.
  pose proof (proj1 (Forall_lookup _ _) (loops_in_pool_reachable m Hr) _ _ Hl) as [Ha _].
  destruct (lookup_lt_is_Some_2 (agents (this m)) a Ha) as [ag Hag].
  unfold turn. rewrite Hl. simpl. rewrite Hag.
  destruct (AIAgent.executeTask ag task r) as [ag' res].
  destruct rest as [|j rest]; simpl; eexists; (split; [reflexivity|]); simpl;
    rewrite record_result_isRunning, (proj2 (record_result_stats _ _));
    repeat split.
Qed.

(** From a worker's execution in flight to the sleep: every worker not yet
    visited is discovered and executed, in order. *)
Lemma finish_from_execute (i : nat) (nows : nat -> Z) (randoms : nat -> float)
    (rest : list nat) :
  forall (m : Machine) (a : nat) (task : Task),
    reachable m -> loops m !! i = Some (AwaitExecuteTask a task [] rest) ->
    exists m',
      run (map (Turn i) (ExecuteTaskDone (randoms a) :: visit_events nows randoms rest)) m
      = Some m' /\
      calls m' = (calls m ++ visit_calls nows rest ++ [CallSleep 300000])%list /\
      loops m' = <[i := AwaitSleep 300000]> (loops m) /\
      isRunning (this m') = isRunning (this m) /\
      cycleCount (stats (this m')) = cycleCount (stats (this m)) /\
      reachable m'.
Proof.
  induction rest as [|j rest IH]; intros m a task Hr Hl.
  - destruct (turn_execute m i a task [] (randoms a) Hr Hl) as (m1 & Ht & Hc & Hlo & Hrun & Hcc).
    exists m1. simpl. rewrite Ht. repeat split; try assumption.
    eapply reachable_turn; [exact Hr | exact Ht].
  - destruct (turn_execute m i a task (j :: rest) (randoms a) Hr Hl)
      as (m1 & Ht & Hc & Hlo & Hrun & Hcc).
    simpl in Hc, Hlo.
    assert (Hr1 : reachable m1) by (eapply reachable_turn; [exact Hr | exact Ht]).
    assert (Hlt : i < length (loops m)) by (eapply lookup_lt_Some; exact Hl).
    assert (Hl1 : loops m1 !! i = Some (AwaitFindTasks j rest))
      by (rewrite Hlo; apply list_lookup_insert_eq; exact Hlt).
    pose proof (turn_find m1 i j rest (nows j) Hr1 Hl1) as Ht2.
    set (m2 := mkMachine (this m1)
                 (<[i := AwaitExecuteTask j (sample_task (nows j) (worker_capabilities j))
                           [] rest]> (loops m1))
                 (calls m1 ++ [CallExecuteTask j (sample_task (nows j)
                                                    (worker_capabilities j))])%list) in *.
    assert (Hr2 : reachable m2) by (eapply reachable_turn; [exact Hr1 | exact Ht2]).
    assert (Hl2 : loops m2 !! i
                  = Some (AwaitExecuteTask j (sample_task (nows j) (worker_capabilities j))
                            [] rest)).
    { simpl. apply list_lookup_insert_eq. rewrite Hlo, length_insert. exact Hlt. }
    destruct (IH m2 j _ Hr2 Hl2) as (m' & Hrun' & Hc' & Hlo' & Hrn' & Hcc' & Hr').
    exists m'. split.
    { change (run (Turn i (ExecuteTaskDone (randoms a))
                   :: Turn i (FindTasksDone (nows j))
                   :: map (Turn i) (ExecuteTaskDone (randoms j)
                                    :: visit_events nows randoms rest)) m = Some m').
      simpl. simpl in Ht, Ht2. rewrite Ht, Ht2. exact Hrun'. }
    split.
    { rewrite Hc'. simpl. rewrite Hc. rewrite <- !app_assoc. reflexivity. }
    split.
    { rewrite Hlo'. simpl. rewrite Hlo. rewrite !list_insert_insert_eq. reflexivity. }
    split; [rewrite Hrn'; simpl; exact Hrun|].
    split; [rewrite Hcc'; simpl; exact Hcc | exact Hr'].
Qed.

Lemma turn_wake_stopped (m : Machine) (i : nat) (ms : Z) :
  isRunning (this m) = false -> loops m !! i = Some (AwaitSleep ms) ->
  turn i TimerFired m = Some (mkMachine (this m) (<[i := Returned]> (loops m)) (calls m)).
Proof.
  intros Hrun Hl. unfold turn. rewrite Hl. simpl. unfold runCycle. rewrite Hrun.
  rewrite app_nil_r. reflexivity.
Qed.

Lemma run_app (inps inps' : list Input) (m m1 m2 : Machine) :
  run inps m = Some m1 -> run inps' m1 = Some m2 -> run (inps ++ inps') m = Some m2.
Proof.
  revert m. induction inps as [|inp inps IH]; intros m H1 H2; simpl in *.
  - injection H1 as ->. exact H2.
  - destruct (step inp m); [|discriminate]. eapply IH; eassumption.
Qed.

Lemma run_one (inp : Input) (m m' : Machine) :
  step inp m = Some m' -> run [inp] m = Some m'.
Proof. intros H. simpl. rewrite H. reflexivity. Qed.

(** A stopped activation goes through the rest of its cycle. *)
Lemma stopped_activation_finishes (m : Machine) (i : nat) (k : Await)
    (nows : nat -> Z) (randoms : nat -> float) :
  reachable m -> isRunning (this m) = false ->
  loops m !! i = Some k -> is_active k = true ->
  exists m',
    run (map (Turn i) (finishing_events k nows randoms)) m = Some m' /\
    calls m' = (calls m ++ finishing_calls k nows)%list /\
    loops m' = <[i := Returned]> (loops m) /\
    isRunning (this m') = false /\
    cycleCount (stats (this m')) = cycleCount (stats (this m)).
Proof.
  intros Hr Hrun Hl Ha.
  assert (Hlt : i < length (loops m)) by (eapply lookup_lt_Some; exact Hl).
  pose proof (proj1 (Forall_lookup _ _) (visiting_reachable m Hr) _ _ Hl) as Hv.
  destruct k as [a rest|a task tasks rest|ms| |]; try discriminate.
  - pose proof (turn_find m i a rest (nows a) Hr Hl) as Ht.
    set (m1 := mkMachine (this m)
                 (<[i := AwaitExecuteTask a (sample_task (nows a) (worker_capabilities a))
                           [] rest]> (loops m))
                 (calls m ++ [CallExecuteTask a (sample_task (nows a)
                                                   (worker_capabilities a))])%list) in *.
    assert (Hr1 : reachable m1) by (eapply reachable_turn; [exact Hr | exact Ht]).
    assert (Hl1 : loops m1 !! i
                  = Some (AwaitExecuteTask a (sample_task (nows a) (worker_capabilities a))
                            [] rest))
      by (simpl; apply list_lookup_insert_eq; exact Hlt).
    destruct (finish_from_execute i nows randoms rest m1 a _ Hr1 Hl1)
      as (m2 & Hrun2 & Hc2 & Hlo2 & Hrn2 & Hcc2 & Hr2).
    assert (Hl2 : loops m2 !! i = Some (AwaitSleep 300000)).
    { rewrite Hlo2. apply list_lookup_insert_eq. simpl. rewrite length_insert. exact Hlt. }
    assert (Hoff : isRunning (this m2) = false) by (rewrite Hrn2; exact Hrun).
    pose proof (turn_wake_stopped m2 i 300000 Hoff Hl2) as Ht3.
    eexists. split.
    { assert (E : map (Turn i) (finishing_events (AwaitFindTasks a rest) nows randoms)
                  = ([Turn i (FindTasksDone (nows a))]
                     ++ map (Turn i) (ExecuteTaskDone (randoms a)
                                      :: visit_events nows randoms rest)
                     ++ [Turn i TimerFired])%list)
        by (simpl; rewrite map_app; reflexivity).
      rewrite E. eapply run_app; [apply run_one; exact Ht|].
      eapply run_app; [exact Hrun2 | apply run_one; exact Ht3]. }
    simpl. rewrite Hc2, Hlo2, Hcc2. simpl.
    rewrite !list_insert_insert_eq, <- !app_assoc. repeat split. exact Hoff.
  - destruct Hv as (_ & _ & ->).
    destruct (finish_from_execute i nows randoms rest m a task Hr Hl)
      as (m2 & Hrun2 & Hc2 & Hlo2 & Hrn2 & Hcc2 & Hr2).
    assert (Hl2 : loops m2 !! i = Some (AwaitSleep 300000))
      by (rewrite Hlo2; apply list_lookup_insert_eq; exact Hlt).
    assert (Hoff : isRunning (this m2) = false) by (rewrite Hrn2; exact Hrun).
    pose proof (turn_wake_stopped m2 i 300000 Hoff Hl2) as Ht3.
    eexists. split.
    { assert (E : map (Turn i) (finishing_events (AwaitExecuteTask a task [] rest)
                                  nows randoms)
                  = (map (Turn i) (ExecuteTaskDone (randoms a)
                                   :: visit_events nows randoms rest)
                     ++ [Turn i TimerFired])%list)
        by (simpl; rewrite map_app; reflexivity).
      rewrite E. eapply run_app; [exact Hrun2 | apply run_one; exact Ht3]. }
    simpl. rewrite Hc2, Hlo2, Hcc2.
    rewrite !list_insert_insert_eq. repeat split. exact Hoff.
  - pose proof (turn_wake_stopped m i ms Hrun Hl) as Ht.
    eexists. split; [apply run_one; exact Ht|].
    simpl. rewrite app_nil_r. repeat split. exact Hrun.
Qed.

(** C4, amended.  [stop()] changes nothing but the running flag.  The loop
    reads the flag only at its [while] test, so the activation in progress
    still completes its cycle: with the workers answering as they do, it
    goes on to discover and execute for every worker not yet visited, in
    pool order, goes into its five-minute sleep, and returns when it wakes,
    without having begun a new cycle ([cycleCount] stays).  Whatever the
    order in which the timers of the activations fire, as long as [start()]
    is not called again the flag stays cleared, [cycleCount] stays, every
    turn uses up one of the turns the cycles in progress still had, and an
    activation that wakes from its sleep returns without a call.  When every
    activation has returned, [start()] begins exactly one new one, with
    [totalEarnings] and [tasksCompleted] as they were and [cycleCount] one
    more. *)
Theorem stop_lets_cycle_finish_then_returns
    (m : Machine) (i : nat) (k : Await) (nows : nat -> Z) (randoms : nat -> float) :
  reachable m -> loops m !! i = Some k -> is_active k = true ->
  (stats (this (stop m)) = stats (this m) /\ agents (this (stop m)) = agents (this m) /\
   loops (stop m) = loops m /\ calls (stop m) = calls m /\
   isRunning (this (stop m)) = false) /\
  visiting k /\
  (exists m',
     run (map (Turn i) (finishing_events k nows randoms)) (stop m) = Some m' /\
     calls m' = (calls m ++ finishing_calls k nows)%list /\
     loops m' = <[i := Returned]> (loops m) /\
     isRunning (this m') = false /\
     cycleCount (stats (this m')) = cycleCount (stats (this m))) /\
  (forall turns m',
     run (timer_turns turns) (stop m) = Some m' ->
     isRunning (this m') = false /\
     cycleCount (stats (this m')) = cycleCount (stats (this m)) /\
     total_turns_left m' + length turns <= total_turns_left m /\
     (forall j ms, loops m' !! j = Some (AwaitSleep ms) ->
        turn j TimerFired m'
        = Some (mkMachine (this m') (<[j := Returned]> (loops m')) (calls m'))) /\
     (active_loops m' = 0 ->
        active_loops (start m') = 1 /\
        isRunning (this (start m')) = true /\
        agents (this (start m')) = agents (this m') /\
        totalEarnings (stats (this (start m'))) = totalEarnings (stats (this m')) /\
        tasksCompleted (stats (this (start m'))) = tasksCompleted (stats (this m')) /\
        cycleCount (stats (this (start m'))) = (cycleCount (stats (this m')) + 1)%N)).
Proof.
  intros Hr Hl Ha.
  split; [repeat split|].
  split; [exact (proj1 (Forall_lookup _ _) (visiting_reachable m Hr) _ _ Hl)|].
  split.
  - assert (Hrs : reachable (stop m)) by exact (reachable_step Stop m (stop m) Hr eq_refl).
    exact (stopped_activation_finishes (stop m) i k nows randoms Hrs eq_refl Hl Ha).
  - intros turns m' H.
    destruct (stopped_turns turns (stop m) m' eq_refl H) as (H1 & H2 & H3).
    split; [exact H1|]. split; [exact H2|]. split; [exact H3|]. split.
    + intros j ms Hj. exact (turn_wake_stopped m' j ms H1 Hj).
    + intros Hz. destruct (start_when_idle m' H1) as (k' & Hk & Hlo & Hrest).
      split; [|exact Hrest].
      unfold active_loops at 1. rewrite Hlo, active_loops_app by exact Hk. rewrite Hz.
      reflexivity.
Qed.

Lemma stop_lets_cycle_finish_then_returns_witness :
  exists m',
    run (map (Turn 0)
           [ExecuteTaskDone 0.5;
            FindTasksDone 1700000004000; ExecuteTaskDone 0.5;
            FindTasksDone 1700000007000; ExecuteTaskDone 0.5;
            TimerFired])
        (stop first_execution_in_flight) = Some m' /\
    calls m'
    = (calls first_execution_in_flight
       ++ [ CallFindTasks 1;
            CallExecuteTask 1 (sample_task 1700000004000 ["frontend"; "react"]);
            CallFindTasks 2;
            CallExecuteTask 2 (sample_task 1700000007000 ["testing"; "security"]);
            CallSleep 300000 ])%list /\
    loops m' = [Returned] /\
    isRunning (this m') = false /\
    cycleCount (stats (this m')) = 1%N.
Proof.
  assert (Hr : reachable first_execution_in_flight)
    by (exists [Start; Turn 0 (FindTasksDone 1700000001000)]; vm_compute; reflexivity).
  destruct (stop_lets_cycle_finish_then_returns first_execution_in_flight 0
              (AwaitExecuteTask 0 (sample_task 1700000001000 ["smart-contract"; "web3"])
                 [] [1; 2])
              sample_nows all_succeed Hr eq_refl eq_refl)
    as (_ & _ & (m' & H1 & H2 & H3 & H4 & H5) & _).
  exists m'. split; [exact H1|]. split; [exact H2|]. split; [exact H3|].
  split; [exact H4 | exact H5].
Defined.
